(** * Book catalog backend: authentication, token guard and catalog handlers

    A shallow embedding of the Express handlers of the repository
    (controllers/authController.js, controllers/bookController.js,
    middleware/authMiddleware.js, the two routers and the two Mongoose
    schemas) together with the properties the specification states about
    them.

    Conventions of the embedding.
    - A handler is a function from the store and the request to the new
      store and an [outcome]: the response sent, a hand-over to the next
      stage, or an error nobody caught (a rejected promise of an [async]
      handler without [try]/[catch]).
    - Library calls that may throw return a [result]; [try]/[catch] is a
      match on it.
    - JavaScript numbers are integers of [Z] (exact in the range where a
      double is); strings are byte strings, and letter case, white space and
      pattern matching are those of ASCII.
    - A request body is a parsed JSON object and a query parameter is
      given once or not at all.
    - The collaborators that are not part of the repository (jsonwebtoken,
      bcryptjs, the casts of Mongoose for values that are not strings, the
      regular-expression engine of the database beyond the fragment
      interpreted here) are the fields of [libraries]; every property
      below holds for all of them, and [Sample] gives one instance to run
      the handlers on. *)

From Stdlib Require Import ZArith String Ascii List Bool Lia.
From Stdlib Require Import DecimalString DecimalZ.
From stdpp Require Import base option gmap strings.
Import ListNotations.

Local Open Scope string_scope.
Local Open Scope Z_scope.

(** ** JavaScript values as they reach the handlers *)

Module JS.

(** A parsed JSON value ([express.json()] fills [req.body] with these). *)
#[warnings="-register-all"]
Inductive json : Type :=
| JNull
| JBool (b : bool)
| JNum (n : Z)
| JStr (s : string)
| JArr (l : list json)
| JObj (m : gmap string json).

(** [req.body]: the parsed object; a missing key reads as [undefined]. *)
Abbreviation object := (gmap string json).

(** ToBoolean of a property read ([None] is [undefined]). *)
Definition truthy (v : option json) : bool :=
  match v with
  | None => false
  | Some JNull => false
  | Some (JBool b) => b
  | Some (JNum n) => negb (n =? 0)
  | Some (JStr s) => negb (String.eqb s "")
  | Some (JArr _) => true
  | Some (JObj _) => true
  end.

(** ToBoolean of a string that may be [undefined] (a header, a query
    parameter, a piece of a destructured array). *)
Definition truthy_str (s : option string) : bool :=
  match s with
  | None => false
  | Some s => negb (String.eqb s "")
  end.

(** [x === lit] for a string that may be [undefined]. *)
Definition is_string (x : option string) (lit : string) : bool :=
  match x with
  | Some s => String.eqb s lit
  | None => false
  end.

(** [String.prototype.split] with a one-character separator. *)
Fixpoint split (sep : ascii) (s : string) : list string :=
  match s with
  | EmptyString => [EmptyString]
  | String c rest =>
      if Ascii.eqb c sep then EmptyString :: split sep rest
      else match split sep rest with
           | [] => [String c EmptyString]
           | w :: ws => String c w :: ws
           end
  end.

(** White space removed by [trim] and skipped by [parseInt]. *)
Definition is_space (c : ascii) : bool :=
  let n := nat_of_ascii c in
  orb (Nat.eqb n 32) (andb (Nat.leb 9 n) (Nat.leb n 13)).

Fixpoint trimStart (s : string) : string :=
  match s with
  | String c rest => if is_space c then trimStart rest else s
  | EmptyString => EmptyString
  end.

Fixpoint trimEnd (s : string) : string :=
  match s with
  | EmptyString => EmptyString
  | String c rest =>
      match trimEnd rest with
      | EmptyString => if is_space c then EmptyString else String c EmptyString
      | r => String c r
      end
  end.

(** [String.prototype.trim]. *)
Definition trim (s : string) : string := trimEnd (trimStart s).

Definition lower_ascii (c : ascii) : ascii :=
  let n := nat_of_ascii c in
  if andb (Nat.leb 65 n) (Nat.leb n 90) then ascii_of_nat (n + 32) else c.

(** [String.prototype.toLowerCase]. *)
Fixpoint toLowerCase (s : string) : string :=
  match s with
  | EmptyString => EmptyString
  | String c rest => String (lower_ascii c) (toLowerCase rest)
  end.

(** Characters accepted as digits of the radix. *)
Definition digit_val (radix : Z) (c : ascii) : option Z :=
  let n := Z.of_nat (nat_of_ascii c) in
  let v := if andb (48 <=? n) (n <=? 57) then Some (n - 48)
           else if andb (97 <=? n) (n <=? 122) then Some (n - 87)
           else if andb (65 <=? n) (n <=? 90) then Some (n - 55)
           else None in
  match v with
  | Some d => if d <? radix then Some d else None
  | None => None
  end.

(** Value of the longest prefix of digits; [None] when there is none. *)
Fixpoint digits (radix : Z) (s : string) (acc : option Z) : option Z :=
  match s with
  | String c rest =>
      match digit_val radix c with
      | Some d =>
          digits radix rest
            (Some (match acc with Some a => a * radix + d | None => d end))
      | None => acc
      end
  | EmptyString => acc
  end.

(** [parseInt(x)] with no radix; [None] is NaN.  An absent argument is
    converted to the string "undefined" first, as ToString does. *)
Definition parseInt (arg : option string) : option Z :=
  let s0 := match arg with Some s => s | None => "undefined" end in
  let s1 := trimStart s0 in
  let '(neg, s2) :=
    match s1 with
    | String "-" r => (true, r)
    | String "+" r => (false, r)
    | _ => (false, s1)
    end in
  let '(radix, s3) :=
    match s2 with
    | String "0" (String "x" r) => (16, r)
    | String "0" (String "X" r) => (16, r)
    | _ => (10, s2)
    end in
  match digits radix s3 None with
  | Some n => Some (if neg then - n else n)
  | None => None
  end.

(** [n || d] on a number: NaN and 0 are falsy. *)
Definition num_or (v : option Z) (d : Z) : Z :=
  match v with
  | Some n => if n =? 0 then d else n
  | None => d
  end.

(** [Math.ceil(a / b)] for an integer [a] and a positive integer [b]. *)
Definition Math_ceil_div (a b : Z) : Z :=
  if a mod b =? 0 then a / b else a / b + 1.

End JS.

Import JS.

(** ** Errors, results and responses *)

(** What a library call may throw. *)
Inductive error : Type :=
| TypeError
| IllegalArguments        (* bcryptjs: an argument is not a string *)
| JsonWebTokenError       (* malformed token, bad signature, no secret *)
| TokenExpiredError
| CastError               (* Mongoose: a value does not fit the schema type *)
| ValidatorError          (* Mongoose: a required path is empty, enum *)
| DuplicateKey            (* the store: a unique index is violated *)
| MongoNetworkError       (* the store cannot be reached *)
| MongoRegexError.        (* the store rejects the regular expression *)

Inductive result (A : Type) : Type :=
| Ok (a : A)
| Throw (e : error).
Arguments Ok {A} a.
Arguments Throw {A} e.

Definition bind {A B : Type} (r : result A) (k : A -> result B) : result B :=
  match r with
  | Ok a => k a
  | Throw e => Throw e
  end.

Notation "'await' x <- r 'in' k" := (bind r (fun x => k))
  (at level 10, x name, r at level 100, k at level 200).

(** Identifier assigned by the store (an ObjectId). *)
Definition oid : Type := N.

(** The decoded payload of a verified token. *)
Record decoded : Type := mkDecoded {
  d_id : oid;
  d_role : string;
  d_iat : Z;
  d_exp : Z
}.

Record User : Type := mkUser {
  u_id : oid;
  username : string;
  email : string;
  password : string;
  role : string;
  u_createdAt : Z;
  u_updatedAt : Z
}.

Record Book : Type := mkBook {
  b_id : oid;
  title : string;
  author : string;
  year : option Z;
  createdAt : Z;
  updatedAt : Z
}.

(** The [user] object of the login response. *)
Record user_summary : Type := mkSummary {
  s_id : oid;
  s_username : string;
  s_email : string;
  s_role : string
}.

(** The JSON bodies the handlers send, by shape. *)
Inductive body : Type :=
| Message (message : string)
| SuccessMessage (success : bool) (message : string)
| BookData (data : Book)
| BookPage (data : list Book) (page limit totalPages totalItems : Z)
| LoginData (token : string) (user : user_summary)
| Me (user : decoded).

Record response : Type := mkResponse {
  status : Z;
  json_body : body
}.

(** How a handler or a middleware ends. *)
Inductive outcome : Type :=
| Sent (r : response)
| Next (user : decoded)
| Unhandled (e : error).

(** [res.status(c).json(b)]. *)
Definition send (c : Z) (b : body) : outcome := Sent (mkResponse c b).

(** ** The store *)

(** The two collections and whether the database answers. *)
Record db : Type := mkDb {
  users : list User;
  books : list Book;
  reachable : bool
}.

(** What differs from one request to the next: the clock in whole seconds
    (the resolution of the token library), the identifier the driver draws
    for a new document and the salt bcrypt draws. *)
Record env : Type := mkEnv {
  now : Z;
  new_id : oid;
  salt : string
}.

(** *** Regular expressions of the database

    A pattern made of ordinary characters and "." is interpreted here:
    every character stands for itself, "." for any character but a line
    feed.  The search is not anchored and, with option "i", letters match
    in either case. *)

Inductive atom : Type :=
| Lit (c : ascii)
| AnyChar.

(** Characters with a special meaning in a pattern. *)
Definition metacharacters : string := "\^$.|?*+()[]{}".

Definition is_meta (c : ascii) : bool :=
  existsb (Ascii.eqb c) (list_ascii_of_string metacharacters).

Fixpoint parse_atoms (p : string) : option (list atom) :=
  match p with
  | EmptyString => Some []
  | String c rest =>
      match parse_atoms rest with
      | None => None
      | Some l =>
          if Ascii.eqb c "." then Some (AnyChar :: l)
          else if is_meta c then None
          else Some (Lit c :: l)
      end
  end.

Definition atom_matches (a : atom) (c : ascii) : bool :=
  match a with
  | Lit x => Ascii.eqb (lower_ascii x) (lower_ascii c)
  | AnyChar => negb (Ascii.eqb c "010")
  end.

Fixpoint match_here (l : list atom) (s : string) : bool :=
  match l, s with
  | [], _ => true
  | _ :: _, EmptyString => false
  | a :: l', String c s' => andb (atom_matches a c) (match_here l' s')
  end.

Fixpoint search_atoms (l : list atom) (s : string) : bool :=
  orb (match_here l s)
      (match s with
       | EmptyString => false
       | String _ s' => search_atoms l s'
       end).



(** The filter the listing builds: [{}] or
    [{ $or: [{ title: { $regex, $options } }, { author: { $regex, $options } }] }]. *)
Inductive filter : Type :=
| MatchAll
| TitleOrAuthorRegex (pattern options : string).

(** Newest first: [sort({ createdAt: -1 })]. *)
Fixpoint insert_desc (b : Book) (l : list Book) : list Book :=
  match l with
  | [] => [b]
  | x :: l' =>
      if createdAt x <=? createdAt b then b :: l
      else x :: insert_desc b l'
  end.

Fixpoint sort_desc (l : list Book) : list Book :=
  match l with
  | [] => []
  | b :: l' => insert_desc b (sort_desc l')
  end.

(** *** Small pieces used by the handlers *)

Fixpoint no_space (s : string) : bool :=
  match s with
  | EmptyString => true
  | String c rest => andb (negb (Ascii.eqb c " ")) (no_space rest)
  end.

(** The time spans of the token library that are a count and a unit
    letter: "30s", "10m", "1h", "7d"; in seconds. *)
Definition unit_seconds (c : ascii) : option Z :=
  if Ascii.eqb c "s" then Some 1
  else if Ascii.eqb c "m" then Some 60
  else if Ascii.eqb c "h" then Some 3600
  else if Ascii.eqb c "d" then Some 86400
  else None.

Fixpoint timespan_from (acc : option Z) (s : string) : option Z :=
  match s with
  | EmptyString => None
  | String c rest =>
      match digit_val 10 c with
      | Some d =>
          timespan_from
            (Some (match acc with Some a => a * 10 + d | None => d end)) rest
      | None =>
          match acc, unit_seconds c, rest with
          | Some n, Some u, EmptyString => Some (n * u)
          | _, _, _ => None
          end
      end
  end.

Definition timespan (s : string) : option Z := timespan_from None s.




(** The spec's words for the header: exactly the keyword, one space and a
    token without spaces. *)
Definition bearer_scheme (h tok : string) : Prop :=
  h = "Bearer " +:+ tok /\ tok <> "" /\ no_space tok = true.

(** ** The libraries the server is built on *)

Record libraries : Type := mkLibraries {
  (** Mongoose casts of values that are neither a string nor null to the
      String and Number schema types, and of a path segment to an
      ObjectId. *)
  castString_other : json -> result (option string);
  castNumber_other : json -> result (option Z);
  castObjectId : string -> option oid;
  (** [User.findOne({ email: v })] for a [v] that is not a string. *)
  findOne_email_other : list User -> option json -> result (option User);
  (** The database's engine on every pattern outside the fragment above
      (pattern, options): it rejects the pattern or yields the search. *)
  pcre : string -> string -> result (string -> bool);
  (** bcryptjs on strings: hash of a password with a cost and a salt, and
      the comparison of a password with a hash. *)
  bcrypt_hashpw : string -> Z -> string -> string;
  bcrypt_check : string -> string -> bool;
  (** jsonwebtoken: [sign(payload, secret, { expiresIn })] and
      [verify(token, secret)], both reading the clock. *)
  jwt_sign : oid * string -> option string -> string -> Z -> result string;
  jwt_verify : string -> option string -> Z -> result decoded;
  (** [process.env.JWT_SECRET]. *)
  JWT_SECRET : option string
}.

(** What the proofs about expiry use of jsonwebtoken: a token signed with
    a secret and a time span is in the compact form (not empty, no space)
    and [verify] with the same secret accepts it while the clock is before
    the time of issue plus the span, and throws from then on. *)
Definition jwt_expiry_contract (L : libraries) : Prop :=
  forall (payload : oid * string) (secret span : string) (ttl iat : Z) (tok : string),
    timespan span = Some ttl ->
    jwt_sign L payload (Some secret) span iat = Ok tok ->
    tok <> "" /\ no_space tok = true /\
    forall clock : Z,
      (clock < iat + ttl -> exists d, jwt_verify L tok (Some secret) clock = Ok d) /\
      (iat + ttl <= clock -> exists e, jwt_verify L tok (Some secret) clock = Throw e).

(** ** The server *)

Section Server.

Variable L : libraries.

(** *** Mongoose models (schemas of models/User.js and models/Book.js) *)

Definition castString (v : option json) : result (option string) :=
  match v with
  | None => Ok None
  | Some JNull => Ok None
  | Some (JStr s) => Ok (Some s)
  | Some w => castString_other L w
  end.

Definition castNumber (v : option json) : result (option Z) :=
  match v with
  | None => Ok None
  | Some JNull => Ok None
  | Some (JNum n) => Ok (Some n)
  | Some w => castNumber_other L w
  end.

(** [required: true] on a String path: present and not empty. *)
Definition required (v : option string) : result string :=
  match v with
  | Some s => if String.eqb s "" then Throw ValidatorError else Ok s
  | None => Throw ValidatorError
  end.

(** The setters of [email]: [lowercase: true, trim: true]. *)
Definition normalize_email (s : string) : string := trim (toLowerCase s).

(** [enum: ["user", "admin"]]. *)
Definition role_allowed (r : string) : bool :=
  orb (String.eqb r "user") (String.eqb r "admin").

(** [User.findOne({ email })]: the setters of the path also run on the
    value of the filter. *)
Definition User_findOne_email (st : db) (v : option json) : result (option User) :=
  if reachable st then
    match v with
    | Some (JStr e) =>
        Ok (List.find (fun u => String.eqb (email u) (normalize_email e)) (users st))
    | _ => findOne_email_other L (users st) v
    end
  else Throw MongoNetworkError.

(** [new User({ username, email, password, role }).save()]: casts and
    setters, validation, then the insert under the unique indexes. *)
Definition User_save (st : db) (rq : env) (v_username v_email : option json)
    (v_password v_role : string) : result db :=
  await u <- castString v_username in
  await e <- castString v_email in
  await u' <- required (option_map trim u) in
  await e' <- required (option_map normalize_email e) in
  await p <- required (Some v_password) in
  if negb (role_allowed v_role) then Throw ValidatorError
  else if negb (reachable st) then Throw MongoNetworkError
  else if existsb (fun x => orb (N.eqb (u_id x) (new_id rq))
                             (orb (String.eqb (username x) u')
                                  (String.eqb (email x) e'))) (users st)
  then Throw DuplicateKey
  else Ok (mkDb (users st ++ [mkUser (new_id rq) u' e' p v_role (now rq) (now rq)])
                (books st) (reachable st)).

(** The database's [$regex] with [$options]. *)
Definition regex (pattern options : string) : result (string -> bool) :=
  if String.eqb options "i" then
    match parse_atoms pattern with
    | Some l => Ok (search_atoms l)
    | None => pcre L pattern options
    end
  else pcre L pattern options.

Definition compile_filter (f : filter) : result (Book -> bool) :=
  match f with
  | MatchAll => Ok (fun _ => true)
  | TitleOrAuthorRegex p o =>
      await m <- regex p o in
      Ok (fun b => orb (m (title b)) (m (author b)))
  end.

(** [Book.find(filter).sort({ createdAt: -1 }).skip(skip).limit(limit)]. *)
Definition Book_find (st : db) (f : filter) (skip limit : Z) : result (list Book) :=
  if reachable st then
    await p <- compile_filter f in
    Ok (firstn (Z.to_nat limit)
          (skipn (Z.to_nat skip) (sort_desc (List.filter p (books st)))))
  else Throw MongoNetworkError.

(** [Book.countDocuments(filter)]. *)
Definition Book_countDocuments (st : db) (f : filter) : result Z :=
  if reachable st then
    await p <- compile_filter f in
    Ok (Z.of_nat (length (List.filter p (books st))))
  else Throw MongoNetworkError.

(** [new Book({ title, author, year }).save()]. *)
Definition Book_save (st : db) (rq : env) (v_title v_author v_year : option json)
    : result (db * Book) :=
  await t <- castString v_title in
  await a <- castString v_author in
  await y <- castNumber v_year in
  await t' <- required (option_map trim t) in
  await a' <- required (option_map trim a) in
  if negb (reachable st) then Throw MongoNetworkError
  else if existsb (fun x => N.eqb (b_id x) (new_id rq)) (books st)
  then Throw DuplicateKey
  else
    let b := mkBook (new_id rq) t' a' y (now rq) (now rq) in
    Ok (mkDb (users st) (books st ++ [b]) (reachable st), b).

(** One path of an update: not part of it when the value is [undefined]
    ([None]), otherwise cast, trimmed and validated
    ([runValidators: true]). *)
Definition update_string (v : option json) : result (option string) :=
  match v with
  | None => Ok None
  | Some _ =>
      await s <- castString v in
      await s' <- required (option_map trim s) in
      Ok (Some s')
  end.

Definition update_number (v : option json) : result (option (option Z)) :=
  match v with
  | None => Ok None
  | Some _ =>
      await n <- castNumber v in
      Ok (Some n)
  end.

Definition or_old {A : Type} (new : option A) (old : A) : A :=
  match new with
  | Some x => x
  | None => old
  end.

Fixpoint replace_book (b : Book) (l : list Book) : list Book :=
  match l with
  | [] => []
  | x :: l' => if N.eqb (b_id x) (b_id b) then b :: l' else x :: replace_book b l'
  end.

(** [Book.findByIdAndUpdate(id, { title, author, year },
    { new: true, runValidators: true })]. *)
Definition Book_findByIdAndUpdate (st : db) (rq : env) (id : string)
    (v_title v_author v_year : option json) : result (db * option Book) :=
  match castObjectId L id with
  | None => Throw CastError
  | Some i =>
      await t <- update_string v_title in
      await a <- update_string v_author in
      await y <- update_number v_year in
      if reachable st then
        match List.find (fun x => N.eqb (b_id x) i) (books st) with
        | None => Ok (st, None)
        | Some old =>
            let b := mkBook i (or_old t (title old)) (or_old a (author old))
                       (or_old y (year old)) (createdAt old) (now rq) in
            Ok (mkDb (users st) (replace_book b (books st)) (reachable st), Some b)
        end
      else Throw MongoNetworkError
  end.

Fixpoint remove_book (i : oid) (l : list Book) : list Book :=
  match l with
  | [] => []
  | x :: l' => if N.eqb (b_id x) i then l' else x :: remove_book i l'
  end.

(** [Book.findByIdAndDelete(id)]. *)
Definition Book_findByIdAndDelete (st : db) (id : string)
    : result (db * option Book) :=
  match castObjectId L id with
  | None => Throw CastError
  | Some i =>
      if reachable st then
        match List.find (fun x => N.eqb (b_id x) i) (books st) with
        | None => Ok (st, None)
        | Some old =>
            Ok (mkDb (users st) (remove_book i (books st)) (reachable st), Some old)
        end
      else Throw MongoNetworkError
  end.

(** *** bcryptjs as the handlers call it *)

(** [bcrypt.hash(s, rounds)]: rejects an argument that is not a string. *)
Definition bcrypt_hash (s : option json) (rounds : Z) (slt : string) : result string :=
  match s with
  | Some (JStr pw) => Ok (bcrypt_hashpw L pw rounds slt)
  | _ => Throw IllegalArguments
  end.

(** [bcrypt.compare(s, hash)]. *)
Definition bcrypt_compare (s : option json) (hash : string) : result bool :=
  match s with
  | Some (JStr pw) => Ok (bcrypt_check L pw hash)
  | _ => Throw IllegalArguments
  end.

(** *** Control flow of the handlers *)

(** An [async] handler without [try]/[catch]: what is thrown inside
    rejects the promise and nothing is sent. *)
Definition uncaught (st : db) (r : result (db * outcome)) : db * outcome :=
  match r with
  | Ok x => x
  | Throw e => (st, Unhandled e)
  end.

(** [try { ... } catch (err) { handler }]. *)
Definition try_catch (r : result (db * outcome)) (handler : db * outcome)
    : db * outcome :=
  match r with
  | Ok x => x
  | Throw _ => handler
  end.

(** *** controllers/authController.js *)

Definition register (st : db) (rq : env) (body : object) : db * outcome :=
  uncaught st
    (let v_username := body !! "username" in
     let v_email := body !! "email" in
     let v_password := body !! "password" in
     if orb (negb (truthy v_username))
            (orb (negb (truthy v_email)) (negb (truthy v_password)))
     then Ok (st, send 400 (Message "All fields required"))
     else
       await existing <- User_findOne_email st v_email in
       match existing with
       | Some _ => Ok (st, send 400 (Message "User already exists"))
       | None =>
           await hashedPassword <- bcrypt_hash v_password 10 (salt rq) in
           await st' <- User_save st rq v_username v_email hashedPassword "user" in
           Ok (st', send 201 (Message "User registered successfully"))
       end).

Definition login (st : db) (rq : env) (body : object) : db * outcome :=
  uncaught st
    (let v_email := body !! "email" in
     let v_password := body !! "password" in
     await user <- User_findOne_email st v_email in
     match user with
     | None => Ok (st, send 400 (Message "Invalid credentials"))
     | Some u =>
         await isMatch <- bcrypt_compare v_password (password u) in
         if negb isMatch
         then Ok (st, send 400 (Message "Invalid credentials"))
         else
           await token <- jwt_sign L (u_id u, role u) (JWT_SECRET L) "1h" (now rq) in
           Ok (st, send 200
                     (LoginData token
                        (mkSummary (u_id u) (username u) (email u) (role u))))
     end).

(** *** middleware/authMiddleware.js *)

Definition authMiddleware (clock : Z) (authHeader : option string) : outcome :=
  if negb (truthy_str authHeader)
  then send 401 (Message "NO_AUTH_HEADER")
  else
    let parts := split " " (default "" authHeader) in
    let scheme := nth_error parts 0 in
    let token := nth_error parts 1 in
    if orb (negb (is_string scheme "Bearer")) (negb (truthy_str token))
    then send 401 (Message "MALFORMED_AUTH_HEADER")
    else
      match jwt_verify L (default "" token) (JWT_SECRET L) clock with
      | Ok d => Next d
      | Throw _ => send 401 (Message "TOKEN_INVALID_OR_EXPIRED")
      end.

(** *** controllers/bookController.js *)

(** [req.query]: each parameter given once or not at all. *)
Record query : Type := mkQuery {
  q_page : option string;
  q_limit : option string;
  q_search : option string
}.

(** [Math.max(parseInt(req.query.page) || 1, 1)]. *)
Definition page_of (q : query) : Z := Z.max (num_or (parseInt (q_page q)) 1) 1.

(** [Math.max(parseInt(req.query.limit) || 5, 1)]. *)
Definition limit_of (q : query) : Z := Z.max (num_or (parseInt (q_limit q)) 5) 1.

(** [req.query.search?.trim() || ""]. *)
Definition search_of (q : query) : string :=
  match q_search q with
  | Some s => trim s
  | None => ""
  end.

Definition filter_of (search : string) : filter :=
  if negb (String.eqb search "") then TitleOrAuthorRegex search "i" else MatchAll.

(** The body of [getAllBooks] once page, limit and search are known.  The
    two reads of [Promise.all] see the same store. *)
Definition list_books (st : db) (page limit : Z) (search : string) : db * outcome :=
  try_catch
    (let skip := (page - 1) * limit in
     let f := filter_of search in
     await found <- Book_find st f skip limit in
     await totalBooks <- Book_countDocuments st f in
     Ok (st, send 200
               (BookPage found page limit (Math_ceil_div totalBooks limit) totalBooks)))
    (st, send 500 (SuccessMessage false "Failed to fetch books")).

Definition getAllBooks (st : db) (q : query) : db * outcome :=
  list_books st (page_of q) (limit_of q) (search_of q).

Definition createBook (st : db) (rq : env) (body : object) : db * outcome :=
  try_catch
    (let v_title := body !! "title" in
     let v_author := body !! "author" in
     let v_year := body !! "year" in
     if orb (negb (truthy v_title))
            (orb (negb (truthy v_author)) (negb (truthy v_year)))
     then Ok (st, send 400 (Message "Title, author, and year are required"))
     else
       await saved <- Book_save st rq v_title v_author v_year in
       Ok (fst saved, send 201 (BookData (snd saved))))
    (st, send 400 (SuccessMessage false "Invalid book data")).

Definition updateBook (st : db) (rq : env) (id : string) (body : object)
    : db * outcome :=
  try_catch
    (await r <- Book_findByIdAndUpdate st rq id
                  (body !! "title") (body !! "author") (body !! "year") in
     match snd r with
     | None => Ok (st, send 404 (Message "Book not found"))
     | Some updatedBook => Ok (fst r, send 200 (BookData updatedBook))
     end)
    (st, send 400 (Message "Invalid ID or update data")).

Definition deleteBook (st : db) (id : string) : db * outcome :=
  try_catch
    (await r <- Book_findByIdAndDelete st id in
     match snd r with
     | None => Ok (st, send 404 (Message "Book not found"))
     | Some _ => Ok (fst r, send 200 (SuccessMessage true "Book deleted successfully"))
     end)
    (st, send 400 (Message "Invalid ID")).

(** *** routes/authRoutes.js, routes/bookRoutes.js and their mounting *)

Inductive request : Type :=
| POST_auth_register (body : object)
| POST_auth_login (body : object)
| GET_auth_me (authorization : option string)
| GET_books (q : query)
| POST_books (authorization : option string) (body : object)
| PUT_books (id : string) (authorization : option string) (body : object)
| DELETE_books (id : string) (authorization : option string).

(** [router.METHOD(path, authMiddleware, handler)]: the handler runs only
    when the middleware calls [next()]. *)
Definition guarded (st : db) (rq : env) (authorization : option string)
    (handler : decoded -> db * outcome) : db * outcome :=
  match authMiddleware (now rq) authorization with
  | Next user => handler user
  | o => (st, o)
  end.

Definition app (st : db) (rq : env) (r : request) : db * outcome :=
  match r with
  | POST_auth_register body => register st rq body
  | POST_auth_login body => login st rq body
  | GET_auth_me h => guarded st rq h (fun user => (st, send 200 (Me user)))
  | GET_books q => getAllBooks st q
  | POST_books h body => guarded st rq h (fun _ => createBook st rq body)
  | PUT_books id h body => guarded st rq h (fun _ => updateBook st rq id body)
  | DELETE_books id h => guarded st rq h (fun _ => deleteBook st id)
  end.

(** The protected operations and the header they carry. *)
Definition authorization_of (r : request) : option (option string) :=
  match r with
  | GET_auth_me h => Some h
  | POST_books h _ => Some h
  | PUT_books _ h _ => Some h
  | DELETE_books _ h => Some h
  | _ => None
  end.

End Server.

(** ** A small instance: stand-in libraries and the seeded catalog *)

Module Sample.

(** Tokens of the stand-in token library: the letter "t" and the expiry
    in decimal.  They are not signed; the instance only serves to run the
    handlers on concrete requests. *)
Definition encode (exp : Z) : string :=
  String "t" (DecimalString.NilEmpty.string_of_int (Z.to_int exp)).

Definition decode (tok : string) : option Z :=
  match tok with
  | String "t" rest => option_map Z.of_int (DecimalString.NilEmpty.int_of_string rest)
  | _ => None
  end.

Definition sign (payload : oid * string) (secret : option string)
    (expiresIn : string) (clock : Z) : result string :=
  match secret, timespan expiresIn with
  | Some _, Some ttl => Ok (encode (clock + ttl))
  | _, _ => Throw JsonWebTokenError
  end.

Definition verify (tok : string) (secret : option string) (clock : Z)
    : result decoded :=
  match secret, decode tok with
  | Some _, Some exp =>
      if clock <? exp then Ok (mkDecoded 1%N "user" (exp - 3600) exp)
      else Throw TokenExpiredError
  | _, _ => Throw JsonWebTokenError
  end.

Definition hashpw (pw : string) (rounds : Z) (slt : string) : string :=
  "$2a$10$" +:+ slt +:+ "$" +:+ pw.

Definition check (pw hash : string) : bool :=
  match split "$" hash with
  | [_; _; _; _; p] => String.eqb p pw
  | _ => false
  end.

Definition objectId (s : string) : option oid :=
  option_map Z.to_N (digits 10 s None).

Definition libs : libraries :=
  {| castString_other := fun _ => Throw CastError;
     castNumber_other := fun _ => Throw CastError;
     castObjectId := objectId;
     findOne_email_other := fun _ _ => Ok None;
     pcre := fun _ _ => Throw MongoRegexError;
     bcrypt_hashpw := hashpw;
     bcrypt_check := check;
     jwt_sign := sign;
     jwt_verify := verify;
     JWT_SECRET := Some "supersecretkey" |}.

(** The five books of seed.js, inserted together. *)
Definition seeded : list Book :=
  [ mkBook 1%N "The Catcher in the Rye" "J.D. Salinger" (Some 1951) 1000 1000;
    mkBook 2%N "To Kill a Mockingbird" "Harper Lee" (Some 1960) 1000 1000;
    mkBook 3%N "1984" "George Orwell" (Some 1949) 1000 1000;
    mkBook 4%N "The Great Gatsby" "F. Scott Fitzgerald" (Some 1925) 1000 1000;
    mkBook 5%N "Pride and Prejudice" "Jane Austen" (Some 1813) 1000 1000 ].

Definition alice : User :=
  mkUser 1%N "alice" "alice@example.com" (hashpw "wonderland" 10 "salt0")
         "user" 500 500.

Definition store : db := mkDb [alice] seeded true.

Definition rq : env := mkEnv 2000 6%N "salt1".

Definition object_of (l : list (string * json)) : object := list_to_map l.

End Sample.

(** ** The seeding script (seed.js) *)

Section Seeding.

Variable L : libraries.

(** Casts, setters and validation of one document given to
    [Book.insertMany]; the driver has drawn its identifier. *)
Definition Book_validate (clock : Z) (id : oid) (doc : object) : result Book :=
  await t <- castString L (doc !! "title") in
  await a <- castString L (doc !! "author") in
  await y <- castNumber L (doc !! "year") in
  await t' <- required (option_map trim t) in
  await a' <- required (option_map trim a) in
  Ok (mkBook id t' a' y clock clock).

(** All documents are validated before anything is sent; [gen k] is the
    identifier of the document at position [k]. *)
Fixpoint validate_all (clock : Z) (gen : nat -> oid) (k : nat) (docs : list object)
    : result (list Book) :=
  match docs with
  | [] => Ok []
  | d :: ds =>
      await b <- Book_validate clock (gen k) d in
      await bs <- validate_all clock gen (S k) ds in
      Ok (b :: bs)
  end.

(** The ordered bulk insert: it stops at the first identifier that is
    taken; what went in before stays. *)
Fixpoint insert_ordered (l stored : list Book) : list Book * result unit :=
  match l with
  | [] => (stored, Ok tt)
  | b :: l' =>
      if existsb (fun x => N.eqb (b_id x) (b_id b)) stored
      then (stored, Throw DuplicateKey)
      else insert_ordered l' (stored ++ [b])
  end.

(** [Book.insertMany(docs)]. *)
Definition Book_insertMany (st : db) (clock : Z) (gen : nat -> oid)
    (docs : list object) : db * result unit :=
  match validate_all clock gen 0 docs with
  | Throw e => (st, Throw e)
  | Ok bs =>
      if reachable st then
        (mkDb (users st) (fst (insert_ordered bs (books st))) (reachable st),
         snd (insert_ordered bs (books st)))
      else (st, Throw MongoNetworkError)
  end.

(** The array [books] of seed.js. *)
Definition seed_books : list object :=
  map (fun d : string * string * Z =>
         let '(t, a, y) := d in
         list_to_map [("title", JStr t); ("author", JStr a); ("year", JNum y)])
      [ ("The Catcher in the Rye", "J.D. Salinger", 1951);
        ("To Kill a Mockingbird", "Harper Lee", 1960);
        ("1984", "George Orwell", 1949);
        ("The Great Gatsby", "F. Scott Fitzgerald", 1925);
        ("Pride and Prejudice", "Jane Austen", 1813) ].

(** The five documents as stored when [gen] draws the identifiers and the
    clock reads [clock]. *)
Definition seeded_at (clock : Z) (gen : nat -> oid) : list Book :=
  [ mkBook (gen 0%nat) "The Catcher in the Rye" "J.D. Salinger" (Some 1951) clock clock;
    mkBook (gen 1%nat) "To Kill a Mockingbird" "Harper Lee" (Some 1960) clock clock;
    mkBook (gen 2%nat) "1984" "George Orwell" (Some 1949) clock clock;
    mkBook (gen 3%nat) "The Great Gatsby" "F. Scott Fitzgerald" (Some 1925) clock clock;
    mkBook (gen 4%nat) "Pride and Prejudice" "Jane Austen" (Some 1813) clock clock ].

(** The script: connect, insert, report; an error is logged, never
    raised.  The result is the store and the lines written to the
    console. *)
Definition seed (st : db) (clock : Z) (gen : nat -> oid) : db * list string :=
  if reachable st then
    match Book_insertMany st clock gen seed_books with
    | (st', Ok _) => (st', ["Connected to MongoDB"; "Books inserted successfully"])
    | (st', Throw _) => (st', ["Connected to MongoDB"; "Seeding error:"])
    end
  else (st, ["Seeding error:"]).

End Seeding.

(** ** Invariants of the store and views of a response *)

(** What the unique indexes of the users collection promise. *)
Definition users_unique (st : db) : Prop :=
  List.NoDup (map u_id (users st)) /\
  List.NoDup (map username (users st)) /\
  List.NoDup (map email (users st)).

(** What the schema of a user promises of a stored record. *)
Definition user_wellformed (u : User) : Prop :=
  username u <> "" /\ trim (username u) = username u /\
  email u <> "" /\ normalize_email (email u) = email u /\
  password u <> "" /\ role_allowed (role u) = true.

(** What the schema of a book promises of a stored record. *)
Definition book_wellformed (b : Book) : Prop :=
  title b <> "" /\ trim (title b) = title b /\
  author b <> "" /\ trim (author b) = author b.

Definition store_ok (st : db) : Prop :=
  users_unique st /\ Forall user_wellformed (users st) /\
  List.NoDup (map b_id (books st)) /\ Forall book_wellformed (books st).

(** Newest first. *)
Fixpoint newest_first (l : list Book) : Prop :=
  match l with
  | [] => True
  | x :: l' => Forall (fun y => createdAt y <= createdAt x) l' /\ newest_first l'
  end.

(** The [data] of a listing response; nothing for any other outcome. *)
Definition page_items (o : outcome) : list Book :=
  match o with
  | Sent (mkResponse _ (BookPage data _ _ _ _)) => data
  | _ => []
  end.

(** A string of white space only. *)
Fixpoint all_space (s : string) : bool :=
  match s with
  | EmptyString => true
  | String c rest => andb (is_space c) (all_space rest)
  end.

(** ** A second instance: tokens that carry the payload *)

(** What the proofs about identity use of jsonwebtoken: [verify] gives
    back the id and the role that were signed. *)
Definition jwt_payload_contract (L : libraries) : Prop :=
  forall (payload : oid * string) (secret span : string) (iat : Z)
         (tok : string) (clock : Z) (d : decoded),
    jwt_sign L payload (Some secret) span iat = Ok tok ->
    jwt_verify L tok (Some secret) clock = Ok d ->
    d_id d = fst payload /\ d_role d = snd payload.

Fixpoint no_char (c : ascii) (s : string) : bool :=
  match s with
  | EmptyString => true
  | String x rest => andb (negb (Ascii.eqb x c)) (no_char c rest)
  end.

Module Signed.

Definition hex_digit (n : N) : ascii :=
  ascii_of_N (if (n <? 10)%N then 48 + n else 87 + n)%N.

Definition unhex_digit (c : ascii) : option N :=
  let n := N_of_ascii c in
  if andb (48 <=? n)%N (n <=? 57)%N then Some (n - 48)%N
  else if andb (97 <=? n)%N (n <=? 102)%N then Some (n - 87)%N
  else None.

(** Two hexadecimal digits for every character. *)
Fixpoint hex (s : string) : string :=
  match s with
  | EmptyString => EmptyString
  | String c rest =>
      let n := N_of_ascii c in
      String (hex_digit (n / 16)) (String (hex_digit (n mod 16)) (hex rest))
  end.

Fixpoint unhex (s : string) : option string :=
  match s with
  | EmptyString => Some EmptyString
  | String _ EmptyString => None
  | String a (String b rest) =>
      match unhex_digit a, unhex_digit b, unhex rest with
      | Some x, Some y, Some t => Some (String (ascii_of_N (16 * x + y)) t)
      | _, _, _ => None
      end
  end.

Definition dec (z : Z) : string := NilEmpty.string_of_int (Z.to_int z).

Definition undec (s : string) : option Z :=
  option_map Z.of_int (NilEmpty.int_of_string s).

(** The token: expiry, time of issue, id, role and secret, separated by
    dots; the last two in hexadecimal.  The secret stands for the
    signature. *)
Definition encode (id : oid) (role : string) (iat exp : Z) (secret : string)
    : string :=
  String "t" (dec exp) +:+
  String "." (dec iat +:+
  String "." (dec (Z.of_N id) +:+
  String "." (hex role +:+
  String "." (hex secret)))).

Definition decode (tok : string) : option (decoded * string) :=
  match split "." tok with
  | [String "t" e; i; n; r; k] =>
      match undec e, undec i, undec n, unhex r, unhex k with
      | Some e', Some i', Some n', Some r', Some k' =>
          Some (mkDecoded (Z.to_N n') r' i' e', k')
      | _, _, _, _, _ => None
      end
  | _ => None
  end.

Definition sign (payload : oid * string) (secret : option string)
    (expiresIn : string) (clock : Z) : result string :=
  match secret, timespan expiresIn with
  | Some k, Some ttl => Ok (encode (fst payload) (snd payload) clock (clock + ttl) k)
  | _, _ => Throw JsonWebTokenError
  end.

Definition verify (tok : string) (secret : option string) (clock : Z)
    : result decoded :=
  match secret, decode tok with
  | Some k, Some (d, k') =>
      if negb (String.eqb k k') then Throw JsonWebTokenError
      else if clock <? d_exp d then Ok d
      else Throw TokenExpiredError
  | _, _ => Throw JsonWebTokenError
  end.

Definition libs : libraries :=
  {| castString_other := castString_other Sample.libs;
     castNumber_other := castNumber_other Sample.libs;
     castObjectId := castObjectId Sample.libs;
     findOne_email_other := findOne_email_other Sample.libs;
     pcre := pcre Sample.libs;
     bcrypt_hashpw := bcrypt_hashpw Sample.libs;
     bcrypt_check := bcrypt_check Sample.libs;
     jwt_sign := sign;
     jwt_verify := verify;
     JWT_SECRET := JWT_SECRET Sample.libs |}.

End Signed.

(** ** Requests to run the handlers on *)

Module Demo.

Definition dune : object :=
  list_to_map [("title", JStr " Dune "); ("author", JStr "Frank Herbert");
               ("year", JNum 1965)].

Definition dune_stored : Book :=
  mkBook 6%N "Dune" "Frank Herbert" (Some 1965) 2000 2000.

Definition with_dune : db :=
  mkDb [Sample.alice] (Sample.seeded ++ [dune_stored]) true.

Definition bob : object :=
  list_to_map [("username", JStr " bob "); ("email", JStr " Bob@Example.com");
               ("password", JStr "builder"); ("role", JStr "admin")].

Definition bob_stored : User :=
  mkUser 6%N "bob" "bob@example.com" (Sample.hashpw "builder" 10 "salt1")
         "user" 2000 2000.

Definition with_bob : db := mkDb [Sample.alice; bob_stored] Sample.seeded true.

Definition bob_login : object :=
  list_to_map [("email", JStr "BOB@example.com "); ("password", JStr "builder")].

Definition alice_login : object :=
  list_to_map [("email", JStr "alice@example.com"); ("password", JStr "wonderland")].

Definition later : env := mkEnv 3000 7%N "salt2".

(** A header with a token of the first instance, good until 5600. *)
Definition bearer : string := "Bearer t5600".

(** The token the second instance issues to alice at 2000. *)
Definition alice_token : string :=
  "t5600.2000.1.75736572.73757065727365637265746b6579".

Definition year_only : object := list_to_map [("year", JNum 1950)].

Definition orwell : Book :=
  mkBook 3%N "1984" "George Orwell" (Some 1949) 1000 1000.

Definition without_orwell : db :=
  mkDb [Sample.alice]
    [ mkBook 1%N "The Catcher in the Rye" "J.D. Salinger" (Some 1951) 1000 1000;
      mkBook 2%N "To Kill a Mockingbird" "Harper Lee" (Some 1960) 1000 1000;
      mkBook 4%N "The Great Gatsby" "F. Scott Fitzgerald" (Some 1925) 1000 1000;
      mkBook 5%N "Pride and Prejudice" "Jane Austen" (Some 1813) 1000 1000 ]
    true.

Definition empty : db := mkDb [] [] true.

Definition offline : db := mkDb [Sample.alice] Sample.seeded false.

Definition ids (k : nat) : oid := N.of_nat (S k).

Definition more_ids (k : nat) : oid := N.of_nat (k + 6).

End Demo.

(** ** Query parameters as the framework parses them *)

(** A parameter given once is a string; given several times, or with
    brackets, it is an array or an object. *)
#[warnings="-register-all"]
Inductive qvalue : Type :=
| QStr (s : string)
| QArr (l : list qvalue)
| QObj (l : list (string * qvalue)).

(** [Array.prototype.join]. *)
Fixpoint join (sep : string) (l : list string) : string :=
  match l with
  | [] => ""
  | [x] => x
  | x :: rest => x +:+ sep +:+ join sep rest
  end.

(** ToString, as [parseInt] applies it to its argument. *)
Fixpoint toString (v : qvalue) : string :=
  match v with
  | QStr s => s
  | QArr l => join "," (map toString l)
  | QObj _ => "[object Object]"
  end.

Record raw_query : Type := mkRaw {
  r_page : option qvalue;
  r_limit : option qvalue;
  r_search : option qvalue
}.

(** [getAllBooks] on what [req.query] may hold.  [search?.trim()] is a
    call of [undefined] when [search] is an array or an object: a
    TypeError inside the [try]. *)
Definition getAllBooks_raw (L : libraries) (st : db) (q : raw_query) : db * outcome :=
  try_catch
    (let page := Z.max (num_or (parseInt (option_map toString (r_page q))) 1) 1 in
     let limit := Z.max (num_or (parseInt (option_map toString (r_limit q))) 5) 1 in
     await search <- match r_search q with
                     | None => Ok ""
                     | Some (QStr s) => Ok (trim s)
                     | Some _ => Throw TypeError
                     end in
     Ok (list_books L st page limit search))
    (st, send 500 (SuccessMessage false "Failed to fetch books")).

(** A query whose parameters are all given once or not at all. *)
Definition raw_of (q : query) : raw_query :=
  mkRaw (option_map QStr (q_page q)) (option_map QStr (q_limit q))
        (option_map QStr (q_search q)).

(** ** A catalog whose books were created one after the other *)

Module Timeline.

Definition shelf : list Book :=
  [ mkBook 1%N "The Catcher in the Rye" "J.D. Salinger" (Some 1951) 1001 1001;
    mkBook 2%N "To Kill a Mockingbird" "Harper Lee" (Some 1960) 1002 1002;
    mkBook 3%N "1984" "George Orwell" (Some 1949) 1003 1003;
    mkBook 4%N "The Great Gatsby" "F. Scott Fitzgerald" (Some 1925) 1004 1004;
    mkBook 5%N "Pride and Prejudice" "Jane Austen" (Some 1813) 1005 1005 ].

Definition store : db := mkDb [Sample.alice] shelf true.

(** The record of "1984" after its year was set to 1950 at time 3000. *)
Definition orwell_updated : Book :=
  mkBook 3%N "1984" "George Orwell" (Some 1950) 1003 3000.

Definition shelf_updated : list Book :=
  [ mkBook 1%N "The Catcher in the Rye" "J.D. Salinger" (Some 1951) 1001 1001;
    mkBook 2%N "To Kill a Mockingbird" "Harper Lee" (Some 1960) 1002 1002;
    orwell_updated;
    mkBook 4%N "The Great Gatsby" "F. Scott Fitzgerald" (Some 1925) 1004 1004;
    mkBook 5%N "Pride and Prejudice" "Jane Austen" (Some 1813) 1005 1005 ].

End Timeline.

(** Request bodies that the claims' examples use. *)
Module Requests.

Definition blank_title : object :=
  list_to_map [("title", JStr "   "); ("author", JStr "Frank Herbert");
               ("year", JNum 1965)].

(** A login that carries no password, for a stored and for an unknown email. *)
Definition alice_no_password : object :=
  list_to_map [("email", JStr "alice@example.com")].

Definition nobody_no_password : object :=
  list_to_map [("email", JStr "nobody@example.com")].

End Requests.

(** * Properties *)

(** ** Strings *)

Lemma append_cons (c : ascii) (s t : string) :
  String c s +:+ t = String c (s +:+ t).
Proof. reflexivity. Qed.

Lemma append_empty (t : string) : "" +:+ t = t.
Proof. reflexivity. Qed.

Lemma append_nil_r (s : string) : s +:+ "" = s.
Proof.
  induction s as [|c s IH]; [reflexivity|].
  now rewrite append_cons, IH.
Qed.

Lemma append_assoc (a b c : string) : (a +:+ b) +:+ c = a +:+ (b +:+ c).
Proof.
  induction a as [|x a IH]; [reflexivity|].
  now rewrite !append_cons, IH.
Qed.

Lemma append_inj_l (a x y : string) : a +:+ x = a +:+ y -> y = x.
Proof.
  induction a as [|c a IH]; intros H.
  - now rewrite !append_empty in H.
  - rewrite !append_cons in H. injection H as H. now apply IH.
Qed.

Lemma split_nonempty (sep : ascii) (s : string) : split sep s <> [].
Proof.
  induction s as [|c s IH]; simpl; [discriminate|].
  destruct (Ascii.eqb c sep); [discriminate|].
  destruct (split sep s); discriminate.
Qed.

(** A piece without spaces in front of a space is the first piece. *)
Lemma split_space_app (a b : string) :
  no_space a = true ->
  split " " (a +:+ String " " b) = a :: split " " b.
Proof.
  induction a as [|c a IH]; intros H.
  - reflexivity.
  - rewrite append_cons. simpl in *.
    apply andb_prop in H as [Hc Ha].
    destruct (Ascii.eqb c " "); [discriminate|].
    now rewrite (IH Ha).
Qed.

Lemma split_space_whole (a : string) :
  no_space a = true -> split " " a = [a].
Proof.
  induction a as [|c a IH]; simpl; intros H.
  - reflexivity.
  - apply andb_prop in H as [Hc Ha].
    destruct (Ascii.eqb c " "); [discriminate|].
    now rewrite (IH Ha).
Qed.

Lemma eqb_empty_false (s : string) : s <> "" -> String.eqb s "" = false.
Proof. intros H. apply String.eqb_neq. exact H. Qed.

(** ** The token guard *)

Section Guard.

Variable L : libraries.

Lemma authMiddleware_absent (clock : Z) :
  authMiddleware L clock None = send 401 (Message "NO_AUTH_HEADER").
Proof. reflexivity. Qed.

(** What the guard does with a header that is exactly the keyword, a
    space and a token. *)
Lemma authMiddleware_bearer (clock : Z) (h tok : string) :
  bearer_scheme h tok ->
  authMiddleware L clock (Some h) =
    match jwt_verify L tok (JWT_SECRET L) clock with
    | Ok d => Next d
    | Throw _ => send 401 (Message "TOKEN_INVALID_OR_EXPIRED")
    end.
Proof.
  intros (-> & Hne & Hsp).
  unfold authMiddleware.
  change (truthy_str (Some ("Bearer " +:+ tok))) with true.
  cbn [negb default from_option id].
  change ("Bearer " +:+ tok) with ("Bearer" +:+ String " " tok).
  rewrite (split_space_app "Bearer" tok eq_refl).
  rewrite (split_space_whole tok Hsp).
  cbn [nth_error is_string truthy_str default from_option id].
  rewrite (eqb_empty_false tok Hne).
  reflexivity.
Qed.

(** The guard lets a request through exactly when the first
    space-separated piece of the header is the keyword and the second
    piece is a token that verifies; further pieces are not looked at. *)
Lemma authMiddleware_next_iff (clock : Z) (h : option string) (d : decoded) :
  authMiddleware L clock h = Next d <->
  exists s tok,
    h = Some s /\ nth_error (split " " s) 0 = Some "Bearer" /\
    nth_error (split " " s) 1 = Some tok /\ tok <> "" /\
    jwt_verify L tok (JWT_SECRET L) clock = Ok d.
Proof.
  unfold authMiddleware. split.
  - destruct h as [s|]; cbn [truthy_str negb]; [|discriminate].
    destruct (String.eqb s ""); cbn [negb]; [discriminate|].
    cbn [default from_option id].
    destruct (nth_error (split " " s) 0) as [sch|] eqn:E0; cbn [is_string];
      [|discriminate].
    destruct (String.eqb sch "Bearer") eqn:Es; cbn [negb orb]; [|discriminate].
    apply String.eqb_eq in Es. subst sch.
    destruct (nth_error (split " " s) 1) as [tok|] eqn:E1;
      cbn [truthy_str negb]; [|discriminate].
    destruct (String.eqb tok "") eqn:Et; cbn [negb]; [discriminate|].
    cbn [default from_option id].
    destruct (jwt_verify L tok (JWT_SECRET L) clock) as [d'|e] eqn:Ev;
      [|discriminate].
    intros [= <-]. exists s, tok. repeat split; try assumption.
    now apply String.eqb_neq.
  - intros (s & tok & -> & E0 & E1 & Hne & Ev).
    assert (Hs : String.eqb s "" = false).
    { destruct s; [discriminate E1 | reflexivity]. }
    cbn [truthy_str default from_option id]. rewrite Hs. cbn [negb].
    rewrite E0, E1. cbn [is_string truthy_str default from_option id].
    rewrite (eqb_empty_false tok Hne). cbn. now rewrite Ev.
Qed.

(** C1.  A header whose first two space-separated pieces are the keyword
    and a token that verifies passes the guard whatever follows the
    token: the header "Bearer <token> <anything>" is not of the exact
    two-piece form, yet it is neither rejected as malformed nor as
    invalid. *)
Theorem authMiddleware_accepts_trailing_pieces
    (clock : Z) (tok extra : string) (d : decoded) :
  tok <> "" ->
  no_space tok = true ->
  jwt_verify L tok (JWT_SECRET L) clock = Ok d ->
  authMiddleware L clock (Some ("Bearer " +:+ tok +:+ " " +:+ extra)) = Next d
  /\ forall t, ~ bearer_scheme ("Bearer " +:+ tok +:+ " " +:+ extra) t.
Proof.
  intros Hne Hsp Hv. split.
  - apply authMiddleware_next_iff.
    exists ("Bearer " +:+ tok +:+ " " +:+ extra), tok.
    change ("Bearer " +:+ tok +:+ " " +:+ extra)
      with ("Bearer" +:+ String " " (tok +:+ String " " extra)).
    rewrite (split_space_app "Bearer" _ eq_refl).
    rewrite (split_space_app tok extra Hsp).
    repeat split; assumption.
  - intros t0 (E & _ & Hs).
    apply append_inj_l in E. subst t0. revert Hs. clear.
    induction tok as [|c t IH].
    + discriminate.
    + rewrite append_cons. simpl.
      destruct (Ascii.eqb c " "); simpl; [discriminate | exact IH].
Qed.

End Guard.

(** ** Registration and login *)

Section Auth.

Variable L : libraries.

Lemma find_some_of_In {A : Type} (f : A -> bool) (l : list A) (x : A) :
  In x l -> f x = true -> exists y, List.find f l = Some y.
Proof.
  induction l as [|a l IH]; simpl; [tauto|].
  intros [-> | Hin] Hf.
  - rewrite Hf. eauto.
  - destruct (f a); eauto.
Qed.

(** When [bcrypt.compare] resolves to false, a login whose email matches
    no user and a login whose email matches a user get the same response,
    status 400 with the message "Invalid credentials", and leave the
    store as it is. *)
Theorem login_invalid_credentials_same_response
    (st : db) (rq1 rq2 : env) (body1 body2 : object) (u : User) :
  User_findOne_email L st (body1 !! "email") = Ok None ->
  User_findOne_email L st (body2 !! "email") = Ok (Some u) ->
  bcrypt_compare L (body2 !! "password") (password u) = Ok false ->
  login L st rq1 body1 = (st, send 400 (Message "Invalid credentials"))
  /\ login L st rq2 body2 = login L st rq1 body1.
Proof.
  intros H1 H2 Hc. unfold login, uncaught.
  rewrite H1, H2. cbn [bind]. rewrite Hc. cbn [bind negb].
  split; reflexivity.
Qed.

(** C4.  When a user with the same email, as the schema normalizes it,
    is already stored, a registration carrying all three fields is
    answered with status 400 and "User already exists", and the store,
    hence every stored user, is left as it was. *)
Theorem register_existing_email
    (st : db) (rq : env) (body : object) (e : string) (u : User) :
  reachable st = true ->
  truthy (body !! "username") = true ->
  truthy (body !! "password") = true ->
  body !! "email" = Some (JStr e) ->
  e <> "" ->
  In u (users st) ->
  email u = normalize_email e ->
  register L st rq body = (st, send 400 (Message "User already exists")).
Proof.
  intros Hr Hu Hp He Hne Hin Hm. unfold register, uncaught.
  rewrite Hu, Hp, He. cbn [truthy]. rewrite (eqb_empty_false e Hne).
  cbn [negb orb]. unfold User_findOne_email. rewrite Hr.
  destruct (find_some_of_In
              (fun x => String.eqb (email x) (normalize_email e)) (users st) u Hin)
    as [y Hy].
  { now apply String.eqb_eq. }
  rewrite Hy. reflexivity.
Qed.

(** Registration never touches the store unless it answers 201. *)
Lemma register_store_unchanged (st st' : db) (rq : env) (body : object) (o : outcome) :
  register L st rq body = (st', o) ->
  o <> send 201 (Message "User registered successfully") ->
  st' = st.
Proof.
  unfold register, uncaught.
  destruct (orb _ _); [now intros [= <- <-]|].
  destruct (User_findOne_email L st (body !! "email")) as [[x|]|err]; cbn [bind];
    try now intros [= <- <-].
  destruct (bcrypt_hash L (body !! "password") 10 (salt rq)) as [h|err]; cbn [bind];
    try now intros [= <- <-].
  destruct (User_save L st rq (body !! "username") (body !! "email") h "user")
    as [s1|err]; cbn [bind]; now intros [= <- <-].
Qed.

(** With the store out of reach, neither handler answers: the rejection
    of [User.findOne] is not caught. *)
Lemma register_unreachable (st : db) (rq : env) (body : object) :
  reachable st = false ->
  truthy (body !! "username") = true ->
  truthy (body !! "email") = true ->
  truthy (body !! "password") = true ->
  register L st rq body = (st, Unhandled MongoNetworkError).
Proof.
  intros Hr Hu He Hp. unfold register, uncaught, User_findOne_email.
  now rewrite Hu, He, Hp, Hr.
Qed.

Lemma login_unreachable (st : db) (rq : env) (body : object) :
  reachable st = false ->
  login L st rq body = (st, Unhandled MongoNetworkError).
Proof.
  intros Hr. unfold login, uncaught, User_findOne_email. now rewrite Hr.
Qed.

(** A login without a string password for a stored user: the rejection
    of [bcrypt.compare] is not caught. *)
Lemma login_password_not_string (st : db) (rq : env) (body : object) (u : User) :
  User_findOne_email L st (body !! "email") = Ok (Some u) ->
  body !! "password" = None ->
  login L st rq body = (st, Unhandled IllegalArguments).
Proof.
  intros H1 H2. unfold login, uncaught. now rewrite H1, H2.
Qed.

End Auth.

(** ** The catalog *)

Lemma Math_ceil_div_spec (a b : Z) :
  0 < b ->
  (Math_ceil_div a b - 1) * b < a <= Math_ceil_div a b * b.
Proof.
  intros Hb. unfold Math_ceil_div.
  pose proof (Z.div_mod a b ltac:(lia)) as Hd.
  pose proof (Z.mod_pos_bound a b Hb) as Hm.
  destruct (a mod b =? 0) eqn:E.
  - apply Z.eqb_eq in E. nia.
  - apply Z.eqb_neq in E. nia.
Qed.

(** [Math_ceil_div a b] is the least integer whose product with [b]
    reaches [a]. *)
Lemma Math_ceil_div_least (a b n : Z) :
  0 < b -> a <= n * b -> Math_ceil_div a b <= n.
Proof.
  intros Hb Hn. pose proof (Math_ceil_div_spec a b Hb). nia.
Qed.






Section Catalog.

Variable L : libraries.



(** What a 200 response of the listing says. *)
Lemma list_books_success_inv (st : db) (page limit : Z) (s : string)
    (data : list Book) (p l tp ti : Z) :
  snd (list_books L st page limit s) = send 200 (BookPage data p l tp ti) ->
  exists m,
    compile_filter L (filter_of s) = Ok m /\
    data = firstn (Z.to_nat limit)
             (skipn (Z.to_nat ((page - 1) * limit))
                (sort_desc (List.filter m (books st)))) /\
    p = page /\ l = limit /\
    ti = Z.of_nat (length (List.filter m (books st))) /\
    tp = Math_ceil_div ti limit.
Proof.
  unfold list_books, try_catch, Book_find, Book_countDocuments.
  destruct (reachable st); cbn [bind snd]; [|discriminate].
  destruct (compile_filter L (filter_of s)) as [m|e]; cbn [bind snd];
    [|discriminate].
  unfold send. intros [= <- <- <- <- <-]. exists m. repeat split.
Qed.

(** C6 as amended.  [page] and [limit] are read with [parseInt]; what is
    absent or not a number, and zero, take the default (1 for [page], 5
    for [limit]); a negative value becomes 1; a positive value is kept.
    So a non-positive or non-numeric [page] always becomes 1, while a
    [limit] that is zero or not a number becomes 5.  The listing is the
    listing for these values, and its response repeats them. *)
Theorem page_and_limit_coercion (st : db) (q : query) :
  page_of q =
    match parseInt (q_page q) with
    | Some n => if 0 <? n then n else 1
    | None => 1
    end
  /\ limit_of q =
    match parseInt (q_limit q) with
    | Some n => if 0 <? n then n else if n =? 0 then 5 else 1
    | None => 5
    end
  /\ page_of (mkQuery None (q_limit q) (q_search q)) = 1
  /\ limit_of (mkQuery (q_page q) None (q_search q)) = 5
  /\ 1 <= page_of q /\ 1 <= limit_of q
  /\ getAllBooks L st q = list_books L st (page_of q) (limit_of q) (search_of q)
  /\ forall data p l tp ti,
       snd (getAllBooks L st q) = send 200 (BookPage data p l tp ti) ->
       p = page_of q /\ l = limit_of q.
Proof.
  unfold page_of, limit_of, num_or. repeat split.
  - destruct (parseInt (q_page q)) as [n|]; [|reflexivity].
    destruct (n =? 0) eqn:E0; destruct (0 <? n) eqn:E1; lia.
  - destruct (parseInt (q_limit q)) as [n|]; [|reflexivity].
    destruct (n =? 0) eqn:E0; destruct (0 <? n) eqn:E1; lia.
  - lia.
  - lia.
  - apply list_books_success_inv in H. now destruct H as (m & _ & _ & -> & _).
  - apply list_books_success_inv in H. now destruct H as (m & _ & _ & _ & -> & _).
Qed.

(** C7.  In a successful response of the listing, [totalItems] is the
    number of all stored records that match the filter, whatever the page,
    and [totalPages] is the ceiling of [totalItems / limit] for the
    coerced limit, which is at least 1: the least number of pages of
    [limit] records that hold [totalItems] records.  With 5 matching
    records and a limit of 2 there are 3 pages. *)
Theorem getAllBooks_totals (st : db) (q : query)
    (data : list Book) (p l tp ti : Z) :
  snd (getAllBooks L st q) = send 200 (BookPage data p l tp ti) ->
  (exists m,
     compile_filter L (filter_of (search_of q)) = Ok m /\
     ti = Z.of_nat (length (List.filter m (books st))))
  /\ l = limit_of q /\ 1 <= l
  /\ tp = Math_ceil_div ti l
  /\ (tp - 1) * l < ti <= tp * l
  /\ (forall n, ti <= n * l -> tp <= n)
  /\ (ti = 5 -> l = 2 -> tp = 3).
Proof.
  intros H. unfold getAllBooks in H.
  apply list_books_success_inv in H.
  destruct H as (m & Hm & _ & _ & -> & Hti & ->).
  assert (Hl : 1 <= limit_of q) by (unfold limit_of; lia).
  repeat split; try assumption.
  - exists m. now split.
  - apply Math_ceil_div_spec; lia.
  - apply Math_ceil_div_spec; lia.
  - intros n Hn. apply Math_ceil_div_least; [lia | assumption].
  - intros -> ->. reflexivity.
Qed.

(** The listing always answers. *)
Lemma getAllBooks_responds (st : db) (q : query) :
  exists r, getAllBooks L st q = (st, Sent r).
Proof.
  unfold getAllBooks, list_books, try_catch.
  destruct (bind _ _) as [[s1 o]|e] eqn:E; [|eexists; reflexivity].
  unfold Book_find, Book_countDocuments in E.
  destruct (reachable st); cbn [bind] in E; [|discriminate].
  destruct (compile_filter L _); cbn [bind] in E; [|discriminate].
  injection E as <- <-. eexists; reflexivity.
Qed.

(** *** Creating a book *)

Lemma createBook_cases (st : db) (rq : env) (body : object) :
  (orb (negb (truthy (body !! "title")))
       (orb (negb (truthy (body !! "author"))) (negb (truthy (body !! "year")))) = true
   /\ createBook L st rq body =
        (st, send 400 (Message "Title, author, and year are required")))
  \/ (truthy (body !! "title") = true /\ truthy (body !! "author") = true /\
      truthy (body !! "year") = true /\
      ((exists st' b,
          Book_save L st rq (body !! "title") (body !! "author") (body !! "year")
            = Ok (st', b) /\
          createBook L st rq body = (st', send 201 (BookData b)))
       \/ createBook L st rq body =
            (st, send 400 (SuccessMessage false "Invalid book data")))).
Proof.
  unfold createBook, try_catch.
  destruct (truthy (body !! "title")), (truthy (body !! "author")),
    (truthy (body !! "year")); cbn [negb orb];
    try (left; split; reflexivity).
  right. repeat split.
  destruct (Book_save L st rq _ _ _) as [[st' b]|e]; cbn [bind fst snd].
  - left. exists st', b. split; reflexivity.
  - right. reflexivity.
Qed.

(** Creating a book is refused with the 400 response "Title, author,
    and year are required" exactly when the title, the author or the year
    is missing or falsy; the store is then left as it was.  A request
    without a year, or with the year 0, is refused in this way. *)
Theorem createBook_required_fields (st : db) (rq : env) (body : object) :
  (snd (createBook L st rq body)
     = send 400 (Message "Title, author, and year are required")
   <-> (truthy (body !! "title") = false \/ truthy (body !! "author") = false
        \/ truthy (body !! "year") = false))
  /\ ((truthy (body !! "title") = false \/ truthy (body !! "author") = false
       \/ truthy (body !! "year") = false) ->
      createBook L st rq body
        = (st, send 400 (Message "Title, author, and year are required")))
  /\ (forall r, snd (createBook L st rq body) = send 400 r ->
      fst (createBook L st rq body) = st)
  /\ (body !! "year" = None -> truthy (body !! "year") = false)
  /\ (body !! "year" = Some (JNum 0) -> truthy (body !! "year") = false).
Proof.
  destruct (createBook_cases st rq body)
    as [[Hf E] | (Ht & Ha & Hy & [(st' & b & Hs & E) | E])]; rewrite E; cbn [fst snd].
  - assert (Hfalsy : truthy (body !! "title") = false \/
                     truthy (body !! "author") = false \/
                     truthy (body !! "year") = false).
    { destruct (truthy (body !! "title")), (truthy (body !! "author")),
        (truthy (body !! "year")); try discriminate Hf; auto. }
    repeat split; auto.
    + intros ->. reflexivity.
    + intros ->. reflexivity.
  - repeat split.
    + discriminate.
    + intros [H | [H | H]]; congruence.
    + intros [H | [H | H]]; congruence.
    + discriminate.
    + intros ->. reflexivity.
    + intros ->. reflexivity.
  - repeat split.
    + discriminate.
    + intros [H | [H | H]]; congruence.
    + intros [H | [H | H]]; congruence.
    + intros ->. reflexivity.
    + intros ->. reflexivity.
Qed.

(** C10.  Two requests whose bodies agree on title, author and year are
    treated alike whatever else the bodies hold: with the same identifier
    and clock the new store and the response are the same, and with
    different ones two created records still agree on title, author and
    year. *)
Theorem createBook_ignores_other_fields
    (st : db) (rq : env) (body1 body2 : object) :
  body1 !! "title" = body2 !! "title" ->
  body1 !! "author" = body2 !! "author" ->
  body1 !! "year" = body2 !! "year" ->
  createBook L st rq body1 = createBook L st rq body2
  /\ forall rq1 rq2 st1 st2 b1 b2,
       createBook L st rq1 body1 = (st1, send 201 (BookData b1)) ->
       createBook L st rq2 body2 = (st2, send 201 (BookData b2)) ->
       title b1 = title b2 /\ author b1 = author b2 /\ year b1 = year b2.
Proof.
  intros Ht Ha Hy. split.
  - unfold createBook. now rewrite Ht, Ha, Hy.
  - intros rq1 rq2 st1 st2 b1 b2. unfold createBook, try_catch.
    rewrite Ht, Ha, Hy.
    destruct (orb _ _); [discriminate|].
    unfold Book_save.
    destruct (castString L (body2 !! "title")) as [t|]; cbn [bind]; [|discriminate].
    destruct (castString L (body2 !! "author")) as [a|]; cbn [bind]; [|discriminate].
    destruct (castNumber L (body2 !! "year")) as [y|]; cbn [bind]; [|discriminate].
    destruct (required (option_map trim t)) as [t'|]; cbn [bind]; [|discriminate].
    destruct (required (option_map trim a)) as [a'|]; cbn [bind]; [|discriminate].
    destruct (reachable st); cbn [negb]; [|discriminate].
    destruct (existsb _ _); [discriminate|].
    destruct (existsb _ _); [discriminate|].
    cbn [fst snd]. unfold send. intros [= <- <-] [= <- <-]. now repeat split.
Qed.

(** The schema itself does not ask for a year: saving a document without
    one succeeds. *)
Lemma Book_save_year_optional (st : db) (rq : env) (t a : string) :
  reachable st = true ->
  existsb (fun x => N.eqb (b_id x) (new_id rq)) (books st) = false ->
  trim t <> "" -> trim a <> "" ->
  Book_save L st rq (Some (JStr t)) (Some (JStr a)) None
  = Ok (mkDb (users st)
          (books st ++ [mkBook (new_id rq) (trim t) (trim a) None (now rq) (now rq)])
          (reachable st),
        mkBook (new_id rq) (trim t) (trim a) None (now rq) (now rq)).
Proof.
  intros Hr Hid Ht Ha. unfold Book_save, castString, castNumber, required.
  cbn [bind option_map].
  rewrite (eqb_empty_false _ Ht), (eqb_empty_false _ Ha). cbn [bind].
  now rewrite Hr, Hid.
Qed.

(** The three handlers that change the catalog always answer. *)
Lemma createBook_responds (st : db) (rq : env) (body : object) :
  exists st' r, createBook L st rq body = (st', Sent r).
Proof.
  destruct (createBook_cases st rq body)
    as [[_ E] | (_ & _ & _ & [(st' & b & _ & E) | E])];
    rewrite E; eexists _, _; reflexivity.
Qed.

Lemma updateBook_responds (st : db) (rq : env) (id : string) (body : object) :
  exists st' r, updateBook L st rq id body = (st', Sent r).
Proof.
  unfold updateBook, try_catch.
  destruct (Book_findByIdAndUpdate L st rq id _ _ _) as [[s1 [b|]]|e];
    cbn [bind fst snd]; eexists _, _; reflexivity.
Qed.

Lemma deleteBook_responds (st : db) (id : string) :
  exists st' r, deleteBook L st id = (st', Sent r).
Proof.
  unfold deleteBook, try_catch.
  destruct (Book_findByIdAndDelete L st id) as [[s1 [b|]]|e];
    cbn [bind fst snd]; eexists _, _; reflexivity.
Qed.

(** X8.  Through the router, every request on the catalog is answered. *)
Lemma catalog_requests_answered (st : db) (rq : env) (r : request) :
  match r with
  | GET_books _ | POST_books _ _ | PUT_books _ _ _ | DELETE_books _ _ => True
  | _ => False
  end ->
  exists st' resp, app L st rq r = (st', Sent resp).
Proof.
  assert (G : forall h k,
             (forall u, exists st' resp, k u = (st', Sent resp)) ->
             exists st' resp, guarded L st rq h k = (st', Sent resp)).
  { intros h k Hk. unfold guarded, authMiddleware, send.
    destruct (negb (truthy_str h)); [eexists _, _; reflexivity|].
    destruct (orb _ _); [eexists _, _; reflexivity|].
    destruct (jwt_verify L _ _ _); [apply Hk | eexists _, _; reflexivity]. }
  destruct r; cbn [app]; try tauto; intros _.
  - destruct (getAllBooks_responds st q) as [x E]. rewrite E. eauto.
  - apply G. intros _. apply createBook_responds.
  - apply G. intros _. apply updateBook_responds.
  - apply G. intros _. apply deleteBook_responds.
Qed.

End Catalog.

(** ** Tokens issued by login *)

Section Tokens.

Variable L : libraries.

(** What a 200 response of login says about its token. *)
Lemma login_success_inv (st st' : db) (rq : env) (body : object)
    (tok : string) (s : user_summary) :
  login L st rq body = (st', send 200 (LoginData tok s)) ->
  exists u,
    User_findOne_email L st (body !! "email") = Ok (Some u) /\
    bcrypt_compare L (body !! "password") (password u) = Ok true /\
    jwt_sign L (u_id u, role u) (JWT_SECRET L) "1h" (now rq) = Ok tok /\
    s = mkSummary (u_id u) (username u) (email u) (role u) /\ st' = st.
Proof.
  unfold login, uncaught.
  destruct (User_findOne_email L st (body !! "email")) as [[u|]|e] eqn:Ef;
    cbn [bind]; try discriminate.
  destruct (bcrypt_compare L (body !! "password") (password u)) as [[|]|e] eqn:Ec;
    cbn [bind negb]; try discriminate.
  destruct (jwt_sign L _ _ _ _) as [t|e] eqn:Es; cbn [bind]; try discriminate.
  unfold send. intros [= <- <- <-]. exists u. repeat split; assumption.
Qed.

(** C8.  A token issued by login when the clock reads [T] passes the
    guard at every reading before [T] plus 60 minutes and is refused with
    401 "TOKEN_INVALID_OR_EXPIRED" at every later reading; in particular
    it passes 59 minutes after [T] and is refused 61 minutes after [T].
    The clock is that of the token library, in whole seconds. *)
Theorem login_token_valid_for_one_hour
    (st st' : db) (rq : env) (body : object)
    (tok secret : string) (s : user_summary) :
  jwt_expiry_contract L ->
  JWT_SECRET L = Some secret ->
  login L st rq body = (st', send 200 (LoginData tok s)) ->
  (forall t, t < now rq + 60 * 60 ->
     exists d, authMiddleware L t (Some ("Bearer " +:+ tok)) = Next d)
  /\ (forall t, now rq + 60 * 60 < t ->
        authMiddleware L t (Some ("Bearer " +:+ tok))
          = send 401 (Message "TOKEN_INVALID_OR_EXPIRED"))
  /\ (exists d,
        authMiddleware L (now rq + 59 * 60) (Some ("Bearer " +:+ tok)) = Next d)
  /\ authMiddleware L (now rq + 61 * 60) (Some ("Bearer " +:+ tok))
       = send 401 (Message "TOKEN_INVALID_OR_EXPIRED").
Proof.
  intros HC Hsec Hlogin.
  apply login_success_inv in Hlogin as (u & _ & _ & Hsign & _ & _).
  rewrite Hsec in Hsign.
  assert (Hspan : timespan "1h" = Some 3600) by reflexivity.
  destruct (HC _ _ _ _ _ _ Hspan Hsign) as (Hne & Hsp & Hv).
  assert (Hb : bearer_scheme ("Bearer " +:+ tok) tok) by (repeat split; assumption).
  assert (Hacc : forall t, t < now rq + 3600 ->
            exists d, authMiddleware L t (Some ("Bearer " +:+ tok)) = Next d).
  { intros t Ht. rewrite (authMiddleware_bearer L t _ _ Hb), Hsec.
    destruct (proj1 (Hv t) Ht) as [d ->]. now exists d. }
  assert (Hrej : forall t, now rq + 3600 <= t ->
            authMiddleware L t (Some ("Bearer " +:+ tok))
              = send 401 (Message "TOKEN_INVALID_OR_EXPIRED")).
  { intros t Ht. rewrite (authMiddleware_bearer L t _ _ Hb), Hsec.
    destruct (proj2 (Hv t) Ht) as [e ->]. reflexivity. }
  repeat split.
  - intros t Ht. apply Hacc. lia.
  - intros t Ht. apply Hrej. lia.
  - apply Hacc. lia.
  - apply Hrej. lia.
Qed.

(** On the protected routes the handler runs only behind the guard: what
    the guard answers is what the request gets, and the store is left
    alone. *)
Lemma protected_request_refused (st : db) (rq : env) (r : request)
    (h : option string) (resp : response) :
  authorization_of r = Some h ->
  authMiddleware L (now rq) h = Sent resp ->
  app L st rq r = (st, Sent resp).
Proof.
  destruct r; cbn [authorization_of app]; try discriminate;
    intros [= ->] H; unfold guarded; now rewrite H.
Qed.

End Tokens.

(** ** The stand-in libraries meet the contract *)

Lemma uint_no_space (d : Decimal.uint) :
  no_space (NilEmpty.string_of_uint d) = true.
Proof. induction d; simpl; auto. Qed.

Lemma encode_no_space (z : Z) : no_space (Sample.encode z) = true.
Proof.
  unfold Sample.encode, NilEmpty.string_of_int.
  destruct (Z.to_int z); simpl; apply uint_no_space.
Qed.

Lemma decode_encode (z : Z) : Sample.decode (Sample.encode z) = Some z.
Proof.
  unfold Sample.decode, Sample.encode.
  rewrite NilEmpty.isi. simpl. now rewrite DecimalZ.of_to.
Qed.

Lemma sample_jwt_contract : jwt_expiry_contract Sample.libs.
Proof.
  intros payload secret span ttl iat tok Hspan Hsign.
  cbn [jwt_sign jwt_verify Sample.libs] in *. unfold Sample.sign in Hsign.
  rewrite Hspan in Hsign. injection Hsign as <-.
  split; [discriminate|]. split; [apply encode_no_space|].
  intros clock. unfold Sample.verify. rewrite decode_encode. split; intros H.
  - destruct (Z.ltb_spec clock (iat + ttl)); [eauto | lia].
  - destruct (Z.ltb_spec clock (iat + ttl)); [lia | eauto].
Qed.

(** ** The properties on concrete requests *)

(** A header with a third piece after a token that verifies passes the
    guard. *)
Lemma authMiddleware_accepts_trailing_pieces_witness :
  ("t3600" <> "" /\ no_space "t3600" = true /\
   jwt_verify Sample.libs "t3600" (JWT_SECRET Sample.libs) 100
     = Ok (mkDecoded 1%N "user" 0 3600))
  /\ authMiddleware Sample.libs 100 (Some "Bearer t3600 and more")
       = Next (mkDecoded 1%N "user" 0 3600).
Proof.
  assert (H1 : "t3600" <> "") by discriminate.
  assert (H2 : no_space "t3600" = true) by reflexivity.
  assert (H3 : jwt_verify Sample.libs "t3600" (JWT_SECRET Sample.libs) 100
               = Ok (mkDecoded 1%N "user" 0 3600)) by reflexivity.
  split; [repeat split; assumption|].
  exact (proj1 (authMiddleware_accepts_trailing_pieces Sample.libs 100 "t3600"
                  "and more" _ H1 H2 H3)).
Defined.

(** C2.  Registering a second user under a user name that is taken, with
    a fresh email: [user.save()] rejects on the unique index of
    [username], the handler has no [try]/[catch], and no response is
    sent. *)
Theorem register_duplicate_username_uncaught :
  register Sample.libs Sample.store Sample.rq
    (Sample.object_of [("username", JStr "alice");
                       ("email", JStr "bob@example.com");
                       ("password", JStr "wonderland")])
  = (Sample.store, Unhandled DuplicateKey).
Proof. vm_compute. reflexivity. Qed.

(** The same handler with a password that is not a string, and login
    without a password for a stored user: the rejection of bcrypt is not
    caught either. *)
Example register_numeric_password_uncaught :
  register Sample.libs Sample.store Sample.rq
    (Sample.object_of [("username", JStr "bob");
                       ("email", JStr "bob@example.com");
                       ("password", JNum 12345)])
  = (Sample.store, Unhandled IllegalArguments).
Proof. vm_compute. reflexivity. Qed.

Example login_without_password_uncaught :
  login Sample.libs Sample.store Sample.rq
    (Sample.object_of [("email", JStr "alice@example.com")])
  = (Sample.store, Unhandled IllegalArguments).
Proof. vm_compute. reflexivity. Qed.

Lemma login_invalid_credentials_same_response_witness :
  let unknown := Sample.object_of [("email", JStr "nobody@example.com");
                                   ("password", JStr "wonderland")] in
  let wrong := Sample.object_of [("email", JStr "alice@example.com");
                                 ("password", JStr "looking-glass")] in
  login Sample.libs Sample.store Sample.rq unknown
    = (Sample.store, send 400 (Message "Invalid credentials"))
  /\ login Sample.libs Sample.store Sample.rq wrong
    = login Sample.libs Sample.store Sample.rq unknown.
Proof.
  intros unknown wrong.
  apply (login_invalid_credentials_same_response Sample.libs Sample.store
           Sample.rq Sample.rq unknown wrong Sample.alice).
  - vm_compute. reflexivity.
  - vm_compute. reflexivity.
  - vm_compute. reflexivity.
Defined.

Lemma register_existing_email_witness :
  register Sample.libs Sample.store Sample.rq
    (Sample.object_of [("username", JStr "alice2");
                       ("email", JStr "  Alice@Example.COM ");
                       ("password", JStr "looking-glass")])
  = (Sample.store, send 400 (Message "User already exists")).
Proof.
  apply (register_existing_email Sample.libs Sample.store Sample.rq _
           "  Alice@Example.COM " Sample.alice).
  - reflexivity.
  - vm_compute. reflexivity.
  - vm_compute. reflexivity.
  - vm_compute. reflexivity.
  - discriminate.
  - left. reflexivity.
  - vm_compute. reflexivity.
Defined.



(** C6, as stated, fails for [limit]: "0" and "abc" are not positive
    numbers, and the limit becomes 5, not 1. *)
Lemma limit_zero_or_text_becomes_five :
  parseInt (Some "0") = Some 0
  /\ limit_of (mkQuery None (Some "0") None) = 5
  /\ parseInt (Some "abc") = None
  /\ limit_of (mkQuery None (Some "abc") None) = 5
  /\ limit_of (mkQuery None (Some "0") None) <> 1
  /\ limit_of (mkQuery None (Some "abc") None) <> 1.
Proof. repeat split; try reflexivity; discriminate. Qed.

Lemma getAllBooks_totals_witness :
  snd (getAllBooks Sample.libs Sample.store (mkQuery None (Some "2") None))
    = send 200 (BookPage (firstn 2 (sort_desc Sample.seeded)) 1 2 3 5)
  /\ 3 = Math_ceil_div 5 2.
Proof.
  assert (H : snd (getAllBooks Sample.libs Sample.store
                     (mkQuery None (Some "2") None))
              = send 200 (BookPage (firstn 2 (sort_desc Sample.seeded)) 1 2 3 5))
    by (vm_compute; reflexivity).
  split; [exact H|].
  exact (proj1 (proj2 (proj2 (proj2
           (getAllBooks_totals Sample.libs Sample.store _ _ _ _ _ _ H))))).
Defined.

Lemma login_token_valid_for_one_hour_witness :
  login Sample.libs Sample.store Sample.rq
    (Sample.object_of [("email", JStr "alice@example.com");
                       ("password", JStr "wonderland")])
  = (Sample.store,
     send 200 (LoginData "t5600" (mkSummary 1%N "alice" "alice@example.com" "user")))
  /\ (exists d, authMiddleware Sample.libs (2000 + 59 * 60) (Some "Bearer t5600")
                = Next d)
  /\ authMiddleware Sample.libs (2000 + 61 * 60) (Some "Bearer t5600")
     = send 401 (Message "TOKEN_INVALID_OR_EXPIRED").
Proof.
  assert (H : login Sample.libs Sample.store Sample.rq
                (Sample.object_of [("email", JStr "alice@example.com");
                                   ("password", JStr "wonderland")])
              = (Sample.store,
                 send 200 (LoginData "t5600"
                             (mkSummary 1%N "alice" "alice@example.com" "user"))))
    by (vm_compute; reflexivity).
  split; [exact H|].
  exact (proj2 (proj2
           (login_token_valid_for_one_hour Sample.libs _ _ _ _ _ "supersecretkey" _
              sample_jwt_contract eq_refl H))).
Defined.

Lemma createBook_ignores_other_fields_witness :
  createBook Sample.libs Sample.store Sample.rq
    (Sample.object_of [("title", JStr "Dune"); ("author", JStr "Frank Herbert");
                       ("year", JNum 1965); ("role", JStr "admin");
                       ("createdAt", JNum 0)])
  = createBook Sample.libs Sample.store Sample.rq
      (Sample.object_of [("title", JStr "Dune"); ("author", JStr "Frank Herbert");
                         ("year", JNum 1965)]).
Proof.
  refine (proj1 (createBook_ignores_other_fields Sample.libs Sample.store Sample.rq
                   _ _ _ _ _)).
  - vm_compute. reflexivity.
  - vm_compute. reflexivity.
  - vm_compute. reflexivity.
Defined.

(** A book without a year, and one with the year 0, are refused although
    the schema does not require the year. *)
Example createBook_without_year :
  createBook Sample.libs Sample.store Sample.rq
    (Sample.object_of [("title", JStr "Dune"); ("author", JStr "Frank Herbert")])
  = (Sample.store, send 400 (Message "Title, author, and year are required"))
  /\ createBook Sample.libs Sample.store Sample.rq
       (Sample.object_of [("title", JStr "Dune"); ("author", JStr "Frank Herbert");
                          ("year", JNum 0)])
     = (Sample.store, send 400 (Message "Title, author, and year are required")).
Proof. split; vm_compute; reflexivity. Qed.

(** * Further properties of the handlers *)

(** ** More on strings *)

Lemma trimStart_head (s : string) :
  trimStart s = "" \/
  exists c r, trimStart s = String c r /\ is_space c = false.
Proof.
  induction s as [|c s IH]; simpl; [now left|].
  destruct (is_space c) eqn:E; [exact IH|].
  right. now exists c, s.
Qed.

Lemma trimEnd_nonspace (c : ascii) (r : string) :
  is_space c = false -> trimEnd (String c r) = String c (trimEnd r).
Proof. intros H. simpl. rewrite H. now destruct (trimEnd r). Qed.

Lemma trimEnd_cons (c : ascii) (s : string) :
  trimEnd (String c s) =
    match trimEnd s with
    | EmptyString => if is_space c then EmptyString else String c EmptyString
    | t => String c t
    end.
Proof. reflexivity. Qed.

Lemma trimEnd_idem (s : string) : trimEnd (trimEnd s) = trimEnd s.
Proof.
  induction s as [|c s IH]; [reflexivity|].
  rewrite trimEnd_cons. destruct (trimEnd s) as [|x t] eqn:E.
  - destruct (is_space c) eqn:Ec; [reflexivity|].
    rewrite trimEnd_cons. simpl trimEnd. now rewrite Ec.
  - rewrite trimEnd_cons. now rewrite IH.
Qed.

(** [trim] twice is [trim] once. *)
Lemma trim_idem (s : string) : trim (trim s) = trim s.
Proof.
  unfold trim. destruct (trimStart_head s) as [-> | (c & r & -> & Hc)].
  - reflexivity.
  - rewrite (trimEnd_nonspace c r Hc). simpl trimStart. rewrite Hc.
    rewrite (trimEnd_nonspace c _ Hc). now rewrite trimEnd_idem.
Qed.

Lemma trim_all_space (s : string) : all_space s = true -> trim s = "".
Proof.
  unfold trim. induction s as [|c s IH]; simpl; [reflexivity|].
  intros H. apply andb_prop in H as [Hc Hs]. rewrite Hc. now apply IH.
Qed.

(** A trimmed string that is not empty neither starts nor ends with white
    space; so it has a character that is not white space. *)
Lemma trim_nonempty_not_all_space (s : string) :
  trim s <> "" -> all_space s = false.
Proof.
  intros H. destruct (all_space s) eqn:E; [|reflexivity].
  now rewrite (trim_all_space s E) in H.
Qed.

Lemma lower_ascii_idem (c : ascii) : lower_ascii (lower_ascii c) = lower_ascii c.
Proof. destruct c as [[] [] [] [] [] [] [] []]; reflexivity. Qed.

Lemma is_space_lower (c : ascii) : is_space (lower_ascii c) = is_space c.
Proof. destruct c as [[] [] [] [] [] [] [] []]; reflexivity. Qed.

Lemma toLowerCase_idem (s : string) : toLowerCase (toLowerCase s) = toLowerCase s.
Proof.
  induction s as [|c s IH]; simpl; [reflexivity|].
  now rewrite lower_ascii_idem, IH.
Qed.

Lemma toLowerCase_trimStart (s : string) :
  toLowerCase (trimStart s) = trimStart (toLowerCase s).
Proof.
  induction s as [|c s IH]; simpl; [reflexivity|].
  rewrite is_space_lower. now destruct (is_space c).
Qed.

Lemma toLowerCase_trimEnd (s : string) :
  toLowerCase (trimEnd s) = trimEnd (toLowerCase s).
Proof.
  induction s as [|c s IH]; simpl; [reflexivity|].
  rewrite <- IH, is_space_lower.
  destruct (trimEnd s); simpl; [now destruct (is_space c) | reflexivity].
Qed.

(** The setters of [email] applied twice are the setters applied once. *)
Lemma normalize_email_idem (e : string) :
  normalize_email (normalize_email e) = normalize_email e.
Proof.
  unfold normalize_email, trim.
  rewrite toLowerCase_trimEnd, toLowerCase_trimStart, toLowerCase_idem.
  apply trim_idem.
Qed.

(** Splitting a conjunction without introducing anything. *)
Ltac split_ands := repeat match goal with |- _ /\ _ => split end.

(** ** More on lists *)

Lemma existsb_false_forall {A : Type} (f : A -> bool) (l : list A) :
  existsb f l = false -> forall x, In x l -> f x = false.
Proof.
  induction l as [|a l IH]; simpl; [tauto|].
  intros H x [<- | Hx]; apply orb_false_elim in H as [Ha Hl]; auto.
Qed.

Lemma find_none_forall {A : Type} (f : A -> bool) (l : list A) :
  List.find f l = None -> forall x, In x l -> f x = false.
Proof.
  induction l as [|a l IH]; simpl; [tauto|].
  destruct (f a) eqn:E; [discriminate|].
  intros H x [<- | Hx]; auto.
Qed.

Lemma find_app_last {A : Type} (f : A -> bool) (l : list A) (x : A) :
  List.find f l = None -> f x = true -> List.find f (l ++ [x])%list = Some x.
Proof.
  induction l as [|a l IH]; simpl; intros Hn Hx.
  - now rewrite Hx.
  - destruct (f a); [discriminate | now apply IH].
Qed.

Lemma find_some_in {A : Type} (f : A -> bool) (l : list A) (x : A) :
  List.find f l = Some x -> In x l /\ f x = true.
Proof.
  induction l as [|a l IH]; simpl; [discriminate|].
  destruct (f a) eqn:E.
  - intros [= <-]. auto.
  - intros H. destruct (IH H). auto.
Qed.

Lemma firstn_skipn_add {A : Type} (a b : nat) (l : list A) :
  (firstn a l ++ firstn b (skipn a l))%list = firstn (a + b) l.
Proof.
  revert l. induction a as [|a IH]; intros l; [reflexivity|].
  destruct l as [|x l]; simpl.
  - now rewrite firstn_nil.
  - now rewrite IH.
Qed.

(** Cutting a list into [p] successive pieces of [n] elements and putting
    them together again gives its first [p * n] elements. *)
Lemma chunks_concat {A : Type} (n p : nat) (l : list A) :
  flat_map (fun k => firstn n (skipn ((k - 1) * n) l)) (seq 1 p)
  = firstn (p * n) l.
Proof.
  induction p as [|p IH]; [reflexivity|].
  rewrite seq_S, flat_map_app, IH. simpl flat_map. rewrite app_nil_r.
  replace (p - 0)%nat with p by lia.
  rewrite firstn_skipn_add. f_equal. lia.
Qed.

Lemma filter_true {A : Type} (l : list A) : List.filter (fun _ => true) l = l.
Proof. induction l as [|a l IH]; simpl; [reflexivity | now rewrite IH]. Qed.

Lemma In_filter_iff {A : Type} (f : A -> bool) (l : list A) (x : A) :
  In x (List.filter f l) <-> In x l /\ f x = true.
Proof.
  induction l as [|a l IH]; simpl; [tauto|].
  destruct (f a) eqn:E; simpl; rewrite IH; split.
  - intros [<- | [H1 H2]]; auto.
  - intros [[<- | H1] H2]; auto.
  - intros [H1 H2]; auto.
  - intros [[<- | H1] H2]; [congruence | auto].
Qed.

Lemma In_firstn {A : Type} (n : nat) (l : list A) (x : A) :
  In x (firstn n l) -> In x l.
Proof.
  revert l. induction n as [|n IH]; intros [|a l]; simpl; try tauto.
  intros [<- | H]; auto.
Qed.

Lemma In_skipn {A : Type} (n : nat) (l : list A) (x : A) :
  In x (skipn n l) -> In x l.
Proof.
  revert l. induction n as [|n IH]; intros [|a l]; simpl; try tauto.
  intros H. right. now apply IH.
Qed.

(** *** The sort of the listing *)

Lemma In_insert_desc (b x : Book) (l : list Book) :
  In x (insert_desc b l) <-> x = b \/ In x l.
Proof.
  induction l as [|a l IH]; simpl.
  - split; intros [H | H]; auto.
  - destruct (createdAt a <=? createdAt b); simpl.
    + split; intros [H | H]; auto.
    + rewrite IH. split; intros [H | [H | H]]; auto.
Qed.

Lemma In_sort_desc (x : Book) (l : list Book) :
  In x (sort_desc l) <-> In x l.
Proof.
  induction l as [|a l IH]; simpl; [tauto|].
  rewrite In_insert_desc, IH. split; intros [H | H]; auto.
Qed.

Lemma length_insert_desc (b : Book) (l : list Book) :
  length (insert_desc b l) = S (length l).
Proof.
  induction l as [|a l IH]; simpl; [reflexivity|].
  destruct (createdAt a <=? createdAt b); simpl; [reflexivity | now rewrite IH].
Qed.

Lemma length_sort_desc (l : list Book) : length (sort_desc l) = length l.
Proof.
  induction l as [|a l IH]; simpl; [reflexivity|].
  now rewrite length_insert_desc, IH.
Qed.

Lemma newest_first_insert (b : Book) (l : list Book) :
  newest_first l -> newest_first (insert_desc b l).
Proof.
  induction l as [|a l IH]; simpl.
  - intros _. split; [constructor | exact I].
  - intros [Ha Hl]. destruct (Z.leb_spec (createdAt a) (createdAt b)) as [Hle | Hgt].
    + simpl. split; [|split; assumption].
      constructor; [assumption|].
      rewrite List.Forall_forall in *. intros y Hy. specialize (Ha y Hy). lia.
    + simpl. split; [|now apply IH].
      apply List.Forall_forall. intros y Hy. apply In_insert_desc in Hy as [-> | Hy].
      * lia.
      * rewrite List.Forall_forall in Ha. now apply Ha.
Qed.

Lemma newest_first_sort (l : list Book) : newest_first (sort_desc l).
Proof.
  induction l as [|a l IH]; simpl; [exact I | now apply newest_first_insert].
Qed.

Lemma newest_first_skipn (n : nat) (l : list Book) :
  newest_first l -> newest_first (skipn n l).
Proof.
  revert l. induction n as [|n IH]; intros [|a l]; simpl; try tauto.
  intros [_ H]. now apply IH.
Qed.

Lemma newest_first_firstn (n : nat) (l : list Book) :
  newest_first l -> newest_first (firstn n l).
Proof.
  revert l. induction n as [|n IH]; intros [|a l]; simpl; try tauto.
  intros [Ha H]. split; [|now apply IH].
  apply List.Forall_forall. intros y Hy. rewrite List.Forall_forall in Ha.
  apply Ha. now apply In_firstn in Hy.
Qed.

(** A record newer than all the others comes first. *)
Lemma sort_desc_newest_last (l : list Book) (b : Book) :
  Forall (fun x => createdAt x < createdAt b) l ->
  sort_desc (l ++ [b])%list = b :: sort_desc l.
Proof.
  induction l as [|a l IH]; simpl; intros H; [reflexivity|].
  inversion H as [|? ? Ha Hl]; subst. rewrite (IH Hl). simpl.
  destruct (Z.leb_spec (createdAt b) (createdAt a)); [lia | reflexivity].
Qed.

(** ** The listing, page by page *)

Section Listing.

Variable L : libraries.

(** With the store in reach and a filter the database accepts, the
    listing answers 200 with this page. *)
Lemma list_books_ok (st : db) (page limit : Z) (s : string) (m : Book -> bool) :
  reachable st = true ->
  compile_filter L (filter_of s) = Ok m ->
  list_books L st page limit s =
    (st, send 200
           (BookPage
              (firstn (Z.to_nat limit)
                 (skipn (Z.to_nat ((page - 1) * limit))
                    (sort_desc (List.filter m (books st)))))
              page limit
              (Math_ceil_div (Z.of_nat (length (List.filter m (books st)))) limit)
              (Z.of_nat (length (List.filter m (books st)))))).
Proof.
  intros Hr Hm. unfold list_books, try_catch, Book_find, Book_countDocuments.
  now rewrite Hr, Hm.
Qed.

(** X10.  A page of the listing holds at most [limit] records, all of them
    stored records that match the filter, the newest first. *)
Theorem listing_page_shape (st : db) (q : query)
    (data : list Book) (p l tp ti : Z) :
  snd (getAllBooks L st q) = send 200 (BookPage data p l tp ti) ->
  Z.of_nat (length data) <= l
  /\ Z.of_nat (length data) <= ti
  /\ newest_first data
  /\ exists m,
       compile_filter L (filter_of (search_of q)) = Ok m /\
       forall b, In b data -> In b (books st) /\ m b = true.
Proof.
  intros H. unfold getAllBooks in H.
  apply list_books_success_inv in H as (m & Hm & -> & _ & -> & -> & _).
  assert (Hl : 1 <= limit_of q) by (unfold limit_of; lia).
  repeat split.
  - pose proof (firstn_le_length (Z.to_nat (limit_of q))
                  (skipn (Z.to_nat ((page_of q - 1) * limit_of q))
                     (sort_desc (List.filter m (books st))))). lia.
  - rewrite length_firstn, length_skipn, length_sort_desc. lia.
  - apply newest_first_firstn, newest_first_skipn, newest_first_sort.
  - exists m. split; [assumption|]. intros b Hb.
    apply In_firstn, In_skipn in Hb.
    apply (proj1 (In_sort_desc _ _)) in Hb.
    now apply (proj1 (In_filter_iff _ _ _)) in Hb.
Qed.

Lemma page_offset (k : nat) (limit : Z) :
  0 <= limit ->
  Z.to_nat ((Z.of_nat k - 1) * limit) = ((k - 1) * Z.to_nat limit)%nat.
Proof.
  intros Hl. destruct k as [|k].
  - simpl. destruct limit; simpl; lia.
  - replace (Z.of_nat (S k) - 1) with (Z.of_nat k) by lia.
    rewrite Z2Nat.inj_mul by lia. rewrite Nat2Z.id. f_equal. lia.
Qed.

(** The pages 1 to [totalPages] of the model, one after the other, are
    the sorted list of the matching records. *)
Lemma pages_concat_sort_desc (st : db) (limit : Z) (s : string) (m : Book -> bool) :
  reachable st = true ->
  compile_filter L (filter_of s) = Ok m ->
  1 <= limit ->
  flat_map (fun k => page_items (snd (list_books L st (Z.of_nat k) limit s)))
    (seq 1 (Z.to_nat
              (Math_ceil_div (Z.of_nat (length (List.filter m (books st)))) limit)))
  = sort_desc (List.filter m (books st)).
Proof.
  intros Hr Hm Hl.
  set (matching := sort_desc (List.filter m (books st))).
  set (tp := Math_ceil_div (Z.of_nat (length (List.filter m (books st)))) limit).
  rewrite (flat_map_ext _
             (fun k => firstn (Z.to_nat limit)
                         (skipn ((k - 1) * Z.to_nat limit) matching))).
  - rewrite chunks_concat. apply firstn_all2.
    unfold matching. rewrite length_sort_desc.
    pose proof (Math_ceil_div_spec
                  (Z.of_nat (length (List.filter m (books st)))) limit
                  ltac:(lia)) as Hc.
    fold tp in Hc.
    assert (0 <= tp) by nia.
    apply Nat2Z.inj_le. rewrite Nat2Z.inj_mul, !Z2Nat.id by lia. lia.
  - intros k. rewrite (list_books_ok st _ limit s m Hr Hm). cbn [snd page_items send].
    now rewrite page_offset by lia.
Qed.

Lemma Permutation_insert_desc (b : Book) (l : list Book) :
  Permutation (insert_desc b l) (b :: l).
Proof.
  induction l as [|a l IH]; simpl; [reflexivity|].
  destruct (createdAt a <=? createdAt b); [reflexivity|].
  etransitivity; [apply perm_skip, IH | apply perm_swap].
Qed.

Lemma Permutation_sort_desc (l : list Book) : Permutation (sort_desc l) l.
Proof.
  induction l as [|a l IH]; simpl; [reflexivity|].
  etransitivity; [apply Permutation_insert_desc | now apply perm_skip].
Qed.

(** Records with pairwise different creation times have only one order
    from the newest on. *)
Lemma newest_first_unique (l1 l2 : list Book) :
  List.NoDup (map createdAt l1) ->
  Permutation l1 l2 ->
  newest_first l1 -> newest_first l2 ->
  l1 = l2.
Proof.
  revert l2. induction l1 as [|a l1 IH]; intros l2 Hn Hp H1 H2.
  - now apply Permutation_nil in Hp.
  - destruct l2 as [|b l2].
    { apply Permutation_sym, Permutation_nil in Hp. discriminate. }
    inversion Hn as [|? ? Ha Hn']; subst.
    destruct H1 as [F1 S1], H2 as [F2 S2].
    rewrite List.Forall_forall in F1, F2.
    assert (Hb : In b (a :: l1)).
    { apply (Permutation_in b (Permutation_sym Hp)). now left. }
    assert (Hain : In a (b :: l2)).
    { apply (Permutation_in a Hp). now left. }
    assert (E : a = b).
    { destruct Hb as [E | Hb]; [exact E|].
      destruct Hain as [E | Hain]; [now symmetry|].
      exfalso. apply Ha.
      pose proof (F1 b Hb). pose proof (F2 a Hain).
      replace (createdAt a) with (createdAt b) by lia.
      now apply in_map. }
    subst b. f_equal. apply IH; try assumption.
    now apply Permutation_cons_inv in Hp.
Qed.

(** X11.  When the matching records have pairwise different creation
    times, so that "newest first" fixes their order, going through the
    pages 1 to [totalPages] with the same search and limit gives exactly
    that order: every matching record once, none skipped, none repeated. *)
Theorem listing_pages_cover
    (st : db) (limit : Z) (s : string) (m : Book -> bool) (sorted : list Book) :
  reachable st = true ->
  compile_filter L (filter_of s) = Ok m ->
  1 <= limit ->
  List.NoDup (map createdAt (List.filter m (books st))) ->
  Permutation sorted (List.filter m (books st)) ->
  newest_first sorted ->
  flat_map (fun k => page_items (snd (list_books L st (Z.of_nat k) limit s)))
    (seq 1 (Z.to_nat
              (Math_ceil_div (Z.of_nat (length (List.filter m (books st)))) limit)))
  = sorted.
Proof.
  intros Hr Hm Hl Hn Hp Hs.
  rewrite (pages_concat_sort_desc st limit s m Hr Hm Hl).
  apply newest_first_unique.
  - apply (Permutation_NoDup
             (Permutation_map createdAt
                (Permutation_sym (Permutation_sort_desc (List.filter m (books st)))))).
    exact Hn.
  - etransitivity; [apply Permutation_sort_desc | now apply Permutation_sym].
  - apply newest_first_sort.
  - exact Hs.
Qed.

(** X12.  With the store in reach and a filter the database accepts, a
    request for a page after the last one is answered with 200 and no
    records, with the counts of the whole listing. *)
Theorem listing_beyond_last_page (st : db) (q : query) (m : Book -> bool) :
  reachable st = true ->
  compile_filter L (filter_of (search_of q)) = Ok m ->
  Math_ceil_div (Z.of_nat (length (List.filter m (books st)))) (limit_of q)
    < page_of q ->
  getAllBooks L st q
  = (st, send 200
           (BookPage [] (page_of q) (limit_of q)
              (Math_ceil_div (Z.of_nat (length (List.filter m (books st))))
                 (limit_of q))
              (Z.of_nat (length (List.filter m (books st)))))).
Proof.
  intros Hr Hm Hp. unfold getAllBooks.
  rewrite (list_books_ok st _ _ _ m Hr Hm).
  assert (Hl : 1 <= limit_of q) by (unfold limit_of; lia).
  pose proof (Math_ceil_div_spec
                (Z.of_nat (length (List.filter m (books st)))) (limit_of q)
                ltac:(lia)) as Hc.
  rewrite skipn_all2; [now rewrite firstn_nil|].
  rewrite length_sort_desc. apply Nat2Z.inj_le. rewrite Z2Nat.id by nia. nia.
Qed.

(** X13.  A search text of white space only is no search: the listing counts
    every stored record. *)
Theorem listing_blank_search (st : db) (pg lm : option string) (s : string) :
  all_space s = true ->
  getAllBooks L st (mkQuery pg lm (Some s)) = getAllBooks L st (mkQuery pg lm None)
  /\ (reachable st = true ->
      exists data p l tp,
        getAllBooks L st (mkQuery pg lm (Some s))
        = (st, send 200 (BookPage data p l tp (Z.of_nat (length (books st)))))).
Proof.
  intros Hs. unfold getAllBooks, search_of, page_of, limit_of. cbn [q_search q_page q_limit].
  rewrite (trim_all_space s Hs). split; [reflexivity|].
  intros Hr. rewrite (list_books_ok st _ _ "" (fun _ => true) Hr eq_refl).
  rewrite filter_true. eauto.
Qed.

(** For a query whose parameters are given once or not at all and whose
    numbers the database takes: the listing answers 200 with a page or 500
    "Failed to fetch books"; in this model it is the 500 exactly when the
    store is out of reach or the database rejects the filter; and it never
    changes the store. *)
Theorem listing_failure (st : db) (q : query) :
  fst (getAllBooks L st q) = st
  /\ (snd (getAllBooks L st q) = send 500 (SuccessMessage false "Failed to fetch books")
      <-> (reachable st = false
           \/ exists e, compile_filter L (filter_of (search_of q)) = Throw e))
  /\ (snd (getAllBooks L st q) = send 500 (SuccessMessage false "Failed to fetch books")
      \/ exists data tp ti,
           snd (getAllBooks L st q)
           = send 200 (BookPage data (page_of q) (limit_of q) tp ti)).
Proof.
  unfold getAllBooks, list_books, try_catch, Book_find, Book_countDocuments.
  destruct (reachable st) eqn:Hr; cbn [bind fst snd].
  - destruct (compile_filter L (filter_of (search_of q))) as [m|e] eqn:Hm;
      cbn [bind fst snd].
    + repeat split.
      * discriminate.
      * intros [H | [e H]]; discriminate.
      * right. eauto.
    + repeat split; eauto.
  - repeat split; eauto.
Qed.



(** On parameters given once, the handler on raw parameters is the
    handler above. *)
Lemma getAllBooks_raw_of (st : db) (q : query) :
  getAllBooks_raw L st (raw_of q) = getAllBooks L st q.
Proof.
  unfold getAllBooks_raw, getAllBooks, raw_of, page_of, limit_of, search_of, try_catch.
  cbn [r_page r_limit r_search].
  destruct (q_page q), (q_limit q), (q_search q); reflexivity.
Qed.


End Listing.

(** ** Creating, updating and deleting books *)

Lemma required_inv (v : option string) (s : string) :
  required v = Ok s -> v = Some s /\ s <> "".
Proof.
  unfold required. destruct v as [x|]; [|discriminate].
  destruct (String.eqb x "") eqn:E; [discriminate|].
  intros [= ->]. split; [reflexivity | now apply String.eqb_neq].
Qed.

Lemma option_map_trim_inv (v : option string) (s : string) :
  option_map trim v = Some s -> trim s = s /\ exists x, v = Some x /\ s = trim x.
Proof.
  destruct v as [x|]; [|discriminate]. intros [= <-].
  split; [apply trim_idem | eauto].
Qed.

Lemma db_eta (st : db) : mkDb (users st) (books st) (reachable st) = st.
Proof. now destruct st. Qed.

Lemma id_fresh_not_in (i : oid) (l : list Book) :
  existsb (fun x => N.eqb (b_id x) i) l = false -> ~ In i (map b_id l).
Proof.
  intros H Hin. apply in_map_iff in Hin as (x & <- & Hx).
  pose proof (existsb_false_forall _ _ H x Hx) as E. simpl in E.
  now rewrite N.eqb_refl in E.
Qed.

Lemma find_id_none (i : oid) (l : list Book) :
  ~ In i (map b_id l) -> List.find (fun x => N.eqb (b_id x) i) l = None.
Proof.
  induction l as [|a l IH]; simpl; [reflexivity|].
  intros H. destruct (N.eqb_spec (b_id a) i) as [E | E]; [tauto|].
  apply IH. tauto.
Qed.

Lemma find_id_some (i : oid) (l : list Book) (b : Book) :
  List.find (fun x => N.eqb (b_id x) i) l = Some b -> In b l /\ b_id b = i.
Proof.
  intros H. apply find_some_in in H as [Hin E]. split; [assumption|].
  now apply N.eqb_eq.
Qed.

Lemma remove_book_absent (i : oid) (l : list Book) :
  ~ In i (map b_id l) -> remove_book i l = l.
Proof.
  induction l as [|a l IH]; simpl; [reflexivity|].
  intros H. destruct (N.eqb_spec (b_id a) i) as [E | E]; [tauto|].
  f_equal. apply IH. tauto.
Qed.

Lemma remove_book_last (l : list Book) (b : Book) :
  ~ In (b_id b) (map b_id l) -> remove_book (b_id b) (l ++ [b]) = l.
Proof.
  induction l as [|a l IH]; simpl; intros H.
  - now rewrite N.eqb_refl.
  - destruct (N.eqb_spec (b_id a) (b_id b)) as [E | E]; [tauto|].
    f_equal. apply IH. tauto.
Qed.

Lemma In_remove_book (i : oid) (l : list Book) (x : Book) :
  In x (remove_book i l) -> In x l.
Proof.
  induction l as [|a l IH]; simpl; [tauto|].
  destruct (N.eqb (b_id a) i); simpl; [tauto|].
  intros [<- | H]; auto.
Qed.

Lemma remove_book_keeps (i : oid) (l : list Book) (x : Book) :
  In x l -> b_id x <> i -> In x (remove_book i l).
Proof.
  induction l as [|a l IH]; simpl; [tauto|].
  intros [<- | H] Hx.
  - destruct (N.eqb_spec (b_id a) i); [contradiction | now left].
  - destruct (N.eqb (b_id a) i); [assumption | right; now apply IH].
Qed.

Lemma length_remove_book (i : oid) (l : list Book) (b : Book) :
  List.find (fun x => N.eqb (b_id x) i) l = Some b ->
  S (length (remove_book i l)) = length l.
Proof.
  induction l as [|a l IH]; simpl; [discriminate|].
  destruct (N.eqb (b_id a) i); [reflexivity|].
  intros H. simpl. now rewrite (IH H).
Qed.

Lemma ids_remove_book (i : oid) (l : list Book) :
  List.NoDup (map b_id l) ->
  List.NoDup (map b_id (remove_book i l)) /\ ~ In i (map b_id (remove_book i l)).
Proof.
  induction l as [|a l IH]; simpl; intros H.
  - split; [constructor | tauto].
  - inversion H as [|? ? Hn Hl]; subst.
    destruct (N.eqb_spec (b_id a) i) as [E | E].
    + subst i. split; assumption.
    + destruct (IH Hl) as [H1 H2]. simpl. split.
      * constructor; [|assumption]. intros Hin. apply Hn.
        apply in_map_iff in Hin as (x & Ex & Hx).
        apply in_map_iff. exists x. split; [assumption|].
        now apply In_remove_book in Hx.
      * intros [H3 | H3]; tauto.
Qed.

Lemma ids_replace_book (b : Book) (l : list Book) :
  map b_id (replace_book b l) = map b_id l.
Proof.
  induction l as [|a l IH]; simpl; [reflexivity|].
  destruct (N.eqb_spec (b_id a) (b_id b)) as [E | E]; simpl; [now rewrite E|].
  now rewrite IH.
Qed.

Lemma In_replace_book (b : Book) (l : list Book) (x : Book) :
  In x (replace_book b l) -> x = b \/ In x l.
Proof.
  induction l as [|a l IH]; simpl; [tauto|].
  destruct (N.eqb (b_id a) (b_id b)); simpl.
  - intros [<- | H]; auto.
  - intros [<- | H]; auto. destruct (IH H); auto.
Qed.

Lemma replace_book_keeps (b : Book) (l : list Book) (x : Book) :
  In x l -> b_id x <> b_id b -> In x (replace_book b l).
Proof.
  induction l as [|a l IH]; simpl; [tauto|].
  intros [<- | H] Hx.
  - destruct (N.eqb_spec (b_id a) (b_id b)); [contradiction | now left].
  - destruct (N.eqb (b_id a) (b_id b)); right; [assumption | now apply IH].
Qed.

Lemma replace_book_in (b : Book) (l : list Book) :
  In (b_id b) (map b_id l) -> In b (replace_book b l).
Proof.
  induction l as [|a l IH]; simpl; [tauto|].
  destruct (N.eqb_spec (b_id a) (b_id b)) as [E | E]; [now left|].
  intros [H | H]; [contradiction | right; now apply IH].
Qed.

Section Mutations.

Variable L : libraries.

Lemma Book_save_inv (st st' : db) (rq : env) (vt va vy : option json) (b : Book) :
  Book_save L st rq vt va vy = Ok (st', b) ->
  exists t a,
    castString L vt = Ok t /\ castString L va = Ok a /\
    castNumber L vy = Ok (year b) /\
    required (option_map trim t) = Ok (title b) /\
    required (option_map trim a) = Ok (author b) /\
    b_id b = new_id rq /\ createdAt b = now rq /\ updatedAt b = now rq /\
    reachable st = true /\
    existsb (fun x => N.eqb (b_id x) (new_id rq)) (books st) = false /\
    st' = mkDb (users st) (books st ++ [b]) (reachable st).
Proof.
  unfold Book_save.
  destruct (castString L vt) as [t|] eqn:Et; cbn [bind]; [|discriminate].
  destruct (castString L va) as [a|] eqn:Ea; cbn [bind]; [|discriminate].
  destruct (castNumber L vy) as [y|] eqn:Ey; cbn [bind]; [|discriminate].
  destruct (required (option_map trim t)) as [t'|] eqn:Rt; cbn [bind]; [|discriminate].
  destruct (required (option_map trim a)) as [a'|] eqn:Ra; cbn [bind]; [|discriminate].
  destruct (reachable st) eqn:Hr; cbn [negb]; [|discriminate].
  destruct (existsb _ _) eqn:Hx; [discriminate|].
  intros [= <- <-]. exists t, a. cbn. repeat split; assumption.
Qed.

Lemma createBook_success_inv (st st' : db) (rq : env) (body : object) (b : Book) :
  createBook L st rq body = (st', send 201 (BookData b)) ->
  Book_save L st rq (body !! "title") (body !! "author") (body !! "year")
  = Ok (st', b).
Proof.
  intros H.
  destruct (createBook_cases L st rq body)
    as [[_ E] | (_ & _ & _ & [(s1 & b1 & Hs & E) | E])];
    rewrite E in H; try discriminate.
  unfold send in H. injection H as <- <-. exact Hs.
Qed.

Lemma wellformed_of_required (t a : option string) (b : Book) :
  required (option_map trim t) = Ok (title b) ->
  required (option_map trim a) = Ok (author b) ->
  book_wellformed b.
Proof.
  intros Ht Ha.
  apply required_inv in Ht as [Ht Ht'], Ha as [Ha Ha'].
  apply option_map_trim_inv in Ht as [Ht _], Ha as [Ha _].
  repeat split; assumption.
Qed.

(** X15.  A created book goes to the end of the collection under the
    identifier drawn for it, stamped with the time of the request, with
    title and author trimmed and not empty; nothing else in the store
    changes. *)
Theorem createBook_created_record
    (st st' : db) (rq : env) (body : object) (b : Book) :
  createBook L st rq body = (st', send 201 (BookData b)) ->
  books st' = (books st ++ [b])%list
  /\ users st' = users st
  /\ ~ In (b_id b) (map b_id (books st))
  /\ b_id b = new_id rq /\ createdAt b = now rq /\ updatedAt b = now rq
  /\ book_wellformed b
  /\ (forall t, body !! "title" = Some (JStr t) -> title b = trim t)
  /\ (forall a, body !! "author" = Some (JStr a) -> author b = trim a)
  /\ (forall y, body !! "year" = Some (JNum y) -> year b = Some y).
Proof.
  intros H. apply createBook_success_inv, Book_save_inv in H.
  destruct H as (t & a & Ct & Ca & Cy & Rt & Ra & Hid & Hc & Hu & Hr & Hx & ->).
  cbn [books users]. repeat split; try assumption; try reflexivity.
  - rewrite Hid. now apply id_fresh_not_in.
  - exact (proj1 (wellformed_of_required t a b Rt Ra)).
  - exact (proj1 (proj2 (wellformed_of_required t a b Rt Ra))).
  - exact (proj1 (proj2 (proj2 (wellformed_of_required t a b Rt Ra)))).
  - exact (proj2 (proj2 (proj2 (wellformed_of_required t a b Rt Ra)))).
  - intros x E. rewrite E in Ct. cbn in Ct. injection Ct as <-.
    apply required_inv in Rt as [Rt _]. cbn in Rt. now injection Rt.
  - intros x E. rewrite E in Ca. cbn in Ca. injection Ca as <-.
    apply required_inv in Ra as [Ra _]. cbn in Ra. now injection Ra.
  - intros y E. rewrite E in Cy. cbn in Cy. now injection Cy.
Qed.

(** X16.  A book created later than every stored one is the first record of
    the first page of the plain listing, which counts one record more. *)
Theorem created_book_heads_the_listing
    (st st' : db) (rq : env) (body : object) (b : Book) (lm : option string) :
  createBook L st rq body = (st', send 201 (BookData b)) ->
  Forall (fun x => createdAt x < now rq) (books st) ->
  exists rest tp,
    getAllBooks L st' (mkQuery None lm None)
    = (st', send 200
              (BookPage (b :: rest) 1 (limit_of (mkQuery None lm None)) tp
                 (Z.of_nat (length (books st)) + 1))).
Proof.
  intros H Hold. apply createBook_success_inv, Book_save_inv in H.
  destruct H as (t & a & _ & _ & _ & _ & _ & _ & Hc & _ & Hr & _ & ->).
  set (q := mkQuery None lm None).
  assert (Hl : 1 <= limit_of q) by (unfold limit_of; lia).
  unfold getAllBooks.
  rewrite (list_books_ok L _ _ _ (search_of q) (fun _ => true)); [|exact Hr|reflexivity].
  cbn [books]. rewrite filter_true.
  rewrite sort_desc_newest_last by (now rewrite Hc).
  change (page_of q) with 1. cbn [Z.sub Z.mul Z.to_nat Z.opp Z.add Z.pos_sub skipn].
  destruct (Z.to_nat (limit_of q)) as [|n] eqn:En; [lia|].
  cbn [firstn]. rewrite length_app. cbn [length].
  eexists _, _. f_equal. f_equal. unfold send. f_equal. f_equal. lia.
Qed.

(** X17.  Deleting the book just created gives back the store as it was
    before the creation. *)
Theorem create_then_delete_restores
    (st st' : db) (rq : env) (body : object) (b : Book) (i : string) :
  createBook L st rq body = (st', send 201 (BookData b)) ->
  castObjectId L i = Some (b_id b) ->
  deleteBook L st' i
  = (st, send 200 (SuccessMessage true "Book deleted successfully")).
Proof.
  intros H Hi. apply createBook_success_inv, Book_save_inv in H.
  destruct H as (t & a & _ & _ & _ & _ & _ & Hid & _ & _ & Hr & Hx & ->).
  rewrite <- Hid in Hx. apply id_fresh_not_in in Hx.
  unfold deleteBook, try_catch, Book_findByIdAndDelete.
  rewrite Hi. cbn [reachable books users]. rewrite Hr.
  rewrite (find_app_last _ _ b (find_id_none _ _ Hx) (N.eqb_refl _)).
  cbn [bind fst snd]. rewrite (remove_book_last _ _ Hx).
  rewrite <- Hr at 1. now rewrite db_eta.
Qed.

Lemma deleteBook_cases (st : db) (i : string) :
  (deleteBook L st i = (st, send 400 (Message "Invalid ID"))
   /\ (castObjectId L i = None \/ reachable st = false))
  \/ (exists id,
        castObjectId L i = Some id /\ reachable st = true /\
        List.find (fun x => N.eqb (b_id x) id) (books st) = None /\
        deleteBook L st i = (st, send 404 (Message "Book not found")))
  \/ (exists id b,
        castObjectId L i = Some id /\ reachable st = true /\
        List.find (fun x => N.eqb (b_id x) id) (books st) = Some b /\
        deleteBook L st i
        = (mkDb (users st) (remove_book id (books st)) (reachable st),
           send 200 (SuccessMessage true "Book deleted successfully"))).
Proof.
  unfold deleteBook, try_catch, Book_findByIdAndDelete.
  destruct (castObjectId L i) as [id|]; [|left; auto].
  destruct (reachable st) eqn:Hr; [|left; auto].
  destruct (List.find _ (books st)) as [b|] eqn:Ef; cbn [bind fst snd].
  - right. right. exists id, b. auto.
  - right. left. exists id. auto.
Qed.

(** X20.  A successful delete removes the one record with the identifier and
    nothing else: the collection is one record shorter, every record
    with another identifier is still there, no record is added, and the
    users are untouched. *)
Theorem deleteBook_removes_one (st st' : db) (i : string) (r : response) :
  deleteBook L st i = (st', Sent r) ->
  status r = 200 ->
  exists b,
    castObjectId L i = Some (b_id b) /\ In b (books st)
    /\ books st' = remove_book (b_id b) (books st)
    /\ S (length (books st')) = length (books st)
    /\ (forall x, In x (books st) -> b_id x <> b_id b -> In x (books st'))
    /\ (forall x, In x (books st') -> In x (books st))
    /\ users st' = users st
    /\ json_body r = SuccessMessage true "Book deleted successfully".
Proof.
  intros H Hs.
  destruct (deleteBook_cases st i)
    as [[E _] | [(id & _ & _ & _ & E) | (id & b & Hi & Hr & Hf & E)]];
    rewrite E in H; unfold send in H; injection H as <- <-; try discriminate Hs.
  destruct (find_id_some _ _ _ Hf) as [Hin Hid]. subst id.
  exists b. cbn [books users json_body]. repeat split; try assumption.
  - exact (length_remove_book _ _ _ Hf).
  - intros x Hx Hne. now apply remove_book_keeps.
  - intros x Hx. now apply In_remove_book in Hx.
Qed.

(** X21.  With identifiers that are unique in the collection, deleting the
    same book a second time is answered with 404 and changes nothing. *)
Theorem deleteBook_twice (st st' : db) (i : string) :
  List.NoDup (map b_id (books st)) ->
  deleteBook L st i
  = (st', send 200 (SuccessMessage true "Book deleted successfully")) ->
  deleteBook L st' i = (st', send 404 (Message "Book not found")).
Proof.
  intros Hnd H.
  destruct (deleteBook_cases st i)
    as [[E _] | [(id & _ & _ & _ & E) | (id & b & Hi & Hr & Hf & E)]];
    rewrite E in H; unfold send in H; try discriminate H.
  injection H as <-.
  destruct (ids_remove_book id _ Hnd) as [_ Hgone].
  unfold deleteBook, try_catch, Book_findByIdAndDelete.
  rewrite Hi. cbn [reachable books]. rewrite Hr.
  now rewrite (find_id_none _ _ Hgone).
Qed.

(** X22.  What a delete refuses, and how: an identifier that is not well
    formed gives 400 "Invalid ID"; so does a store out of reach; a well
    formed identifier of no stored book gives 404.  Whenever the answer is
    not 200 the store is as before. *)
Theorem deleteBook_refusals (st : db) (i : string) :
  (castObjectId L i = None ->
   deleteBook L st i = (st, send 400 (Message "Invalid ID")))
  /\ (reachable st = false ->
      deleteBook L st i = (st, send 400 (Message "Invalid ID")))
  /\ (forall id, castObjectId L i = Some id -> reachable st = true ->
      ~ In id (map b_id (books st)) ->
      deleteBook L st i = (st, send 404 (Message "Book not found")))
  /\ (forall st' r, deleteBook L st i = (st', Sent r) -> status r <> 200 ->
      st' = st).
Proof.
  unfold deleteBook, try_catch, Book_findByIdAndDelete. repeat split.
  - now intros ->.
  - intros ->. now destruct (castObjectId L i).
  - intros id -> -> Hn. now rewrite (find_id_none _ _ Hn).
  - intros st' r. destruct (castObjectId L i) as [id|]; [|now intros [= <- <-]].
    destruct (reachable st); [|now intros [= <- <-]].
    destruct (List.find _ (books st)); cbn [bind fst snd]; intros [= <- <-];
      [intros H; now contradiction H | reflexivity].
Qed.

Lemma update_string_inv (v : option json) (r : option string) :
  update_string L v = Ok r ->
  (v = None /\ r = None)
  \/ (exists s, r = Some s /\ s <> "" /\ trim s = s /\
        (forall t, v = Some (JStr t) -> s = trim t)).
Proof.
  unfold update_string. destruct v as [j|]; [|intros [= <-]; now left].
  destruct (castString L (Some j)) as [c|] eqn:Ec; cbn [bind]; [|discriminate].
  destruct (required (option_map trim c)) as [s|] eqn:Er; cbn [bind]; [|discriminate].
  intros [= <-]. right. exists s.
  apply required_inv in Er as [Er Hne].
  destruct (option_map_trim_inv _ _ Er) as [Ht _].
  repeat split; try assumption.
  intros t [= ->]. cbn in Ec. injection Ec as <-. cbn in Er. now injection Er.
Qed.

Lemma updateBook_success_inv (st st' : db) (rq : env) (i : string)
    (body : object) (b : Book) :
  updateBook L st rq i body = (st', send 200 (BookData b)) ->
  exists old t a y,
    castObjectId L i = Some (b_id old) /\ reachable st = true /\
    List.find (fun x => N.eqb (b_id x) (b_id old)) (books st) = Some old /\
    update_string L (body !! "title") = Ok t /\
    update_string L (body !! "author") = Ok a /\
    update_number L (body !! "year") = Ok y /\
    b = mkBook (b_id old) (or_old t (title old)) (or_old a (author old))
          (or_old y (year old)) (createdAt old) (now rq) /\
    st' = mkDb (users st) (replace_book b (books st)) (reachable st).
Proof.
  unfold updateBook, try_catch, Book_findByIdAndUpdate.
  destruct (castObjectId L i) as [id|]; [|discriminate].
  destruct (update_string L (body !! "title")) as [t|]; cbn [bind]; [|discriminate].
  destruct (update_string L (body !! "author")) as [a|]; cbn [bind]; [|discriminate].
  destruct (update_number L (body !! "year")) as [y|]; cbn [bind]; [|discriminate].
  destruct (reachable st) eqn:Hr; [|discriminate].
  destruct (List.find _ (books st)) as [old|] eqn:Ef; cbn [bind fst snd];
    [|discriminate].
  unfold send. intros [= <- <-].
  destruct (find_id_some _ _ _ Ef) as [_ <-].
  exists old, t, a, y. repeat split; assumption.
Qed.

(** Where [replace_book] writes: at the first record with the
    identifier, and nowhere else. *)
Lemma replace_book_split (b old : Book) (l : list Book) :
  List.find (fun x => N.eqb (b_id x) (b_id b)) l = Some old ->
  exists l1 l2,
    l = (l1 ++ old :: l2)%list
    /\ Forall (fun x => b_id x <> b_id b) l1
    /\ replace_book b l = (l1 ++ b :: l2)%list.
Proof.
  induction l as [|a l IH]; simpl; [discriminate|].
  destruct (N.eqb_spec (b_id a) (b_id b)) as [E | E].
  - intros [= ->]. exists [], l. split_ands; [reflexivity | constructor | reflexivity].
  - intros H. destruct (IH H) as (l1 & l2 & -> & F & R).
    exists (a :: l1), l2. split_ands.
    + reflexivity.
    + now constructor.
    + simpl. now rewrite R.
Qed.

(** X18.  A successful update rewrites one stored record in place: the
    new collection is the old one with the record of that identifier
    replaced, at its position, by the returned record; identifier and
    creation time stay, the update time is the time of the request, a
    field the body does not carry keeps its value, a title or author
    given as a string is stored trimmed, and the users are untouched. *)
Theorem updateBook_effect
    (st st' : db) (rq : env) (i : string) (body : object) (b : Book) :
  updateBook L st rq i body = (st', send 200 (BookData b)) ->
  exists old before after,
    castObjectId L i = Some (b_id old)
    /\ books st = (before ++ old :: after)%list
    /\ Forall (fun x => b_id x <> b_id old) before
    /\ books st' = (before ++ b :: after)%list
    /\ In b (books st')
    /\ b_id b = b_id old /\ createdAt b = createdAt old /\ updatedAt b = now rq
    /\ (body !! "title" = None -> title b = title old)
    /\ (body !! "author" = None -> author b = author old)
    /\ (body !! "year" = None -> year b = year old)
    /\ (forall t, body !! "title" = Some (JStr t) -> title b = trim t /\ trim t <> "")
    /\ (forall a, body !! "author" = Some (JStr a) -> author b = trim a /\ trim a <> "")
    /\ (forall y, body !! "year" = Some (JNum y) -> year b = Some y)
    /\ users st' = users st.
Proof.
  intros H. apply updateBook_success_inv in H.
  destruct H as (old & t & a & y & Hi & Hr & Hf & Ht & Ha & Hy & Eb & ->).
  assert (Hid : b_id b = b_id old) by (now subst b).
  rewrite <- Hid in Hf.
  destruct (replace_book_split b old _ Hf) as (before & after & Eold & Fb & Enew).
  rewrite Hid in Fb.
  exists old, before, after. cbn [books users].
  split_ands; try assumption.
  - rewrite Enew. apply in_app_iff. right. now left.
  - now subst b.
  - now subst b.
  - intros E. rewrite E in Ht. injection Ht as <-. now subst b.
  - intros E. rewrite E in Ha. injection Ha as <-. now subst b.
  - intros E. rewrite E in Hy. injection Hy as <-. now subst b.
  - intros x E. subst b. cbn [title].
    destruct (update_string_inv _ _ Ht) as [[E' _] | (s & -> & Hne & _ & Hs)];
      [congruence|]. cbn. rewrite <- (Hs _ E). now split.
  - intros x E. subst b. cbn [author].
    destruct (update_string_inv _ _ Ha) as [[E' _] | (s & -> & Hne & _ & Hs)];
      [congruence|]. cbn. rewrite <- (Hs _ E). now split.
  - intros x E. subst b. cbn [year]. rewrite E in Hy. cbn in Hy. now injection Hy as <-.
  - reflexivity.
Qed.

(** X19.  What an update refuses: an identifier that is not well formed, a
    title or an author that is blank once trimmed, and a store out of
    reach all give 400 "Invalid ID or update data"; a well formed
    identifier of no stored book gives 404 when the body carries none of
    the three fields.  Whenever the answer is not 200 the store is as
    before. *)
Theorem updateBook_refusals (st : db) (rq : env) (i : string) (body : object) :
  (castObjectId L i = None ->
   updateBook L st rq i body = (st, send 400 (Message "Invalid ID or update data")))
  /\ (forall t, body !! "title" = Some (JStr t) -> all_space t = true ->
      updateBook L st rq i body = (st, send 400 (Message "Invalid ID or update data")))
  /\ (reachable st = false ->
      updateBook L st rq i body = (st, send 400 (Message "Invalid ID or update data")))
  /\ (forall id, castObjectId L i = Some id -> reachable st = true ->
      ~ In id (map b_id (books st)) ->
      body !! "title" = None -> body !! "author" = None -> body !! "year" = None ->
      updateBook L st rq i body = (st, send 404 (Message "Book not found")))
  /\ (forall st' r, updateBook L st rq i body = (st', Sent r) -> status r <> 200 ->
      st' = st).
Proof.
  unfold updateBook, try_catch, Book_findByIdAndUpdate. repeat split.
  - now intros ->.
  - intros t -> Ht. destruct (castObjectId L i); [|reflexivity].
    unfold update_string, castString, required. cbn [bind option_map].
    rewrite (trim_all_space t Ht). reflexivity.
  - intros Hr. destruct (castObjectId L i); [|reflexivity].
    destruct (update_string L (body !! "title")); cbn [bind]; [|reflexivity].
    destruct (update_string L (body !! "author")); cbn [bind]; [|reflexivity].
    destruct (update_number L (body !! "year")); cbn [bind]; [|reflexivity].
    now rewrite Hr.
  - intros id -> Hr Hn -> -> ->. cbn [update_string update_number bind].
    now rewrite Hr, (find_id_none _ _ Hn).
  - intros st' r. destruct (castObjectId L i); [|now intros [= <- <-]].
    destruct (update_string L (body !! "title")); cbn [bind]; [|now intros [= <- <-]].
    destruct (update_string L (body !! "author")); cbn [bind]; [|now intros [= <- <-]].
    destruct (update_number L (body !! "year")); cbn [bind]; [|now intros [= <- <-]].
    destruct (reachable st); [|now intros [= <- <-]].
    destruct (List.find _ (books st)); cbn [bind fst snd]; intros [= <- <-];
      [intros H; now contradiction H | reflexivity].
Qed.

End Mutations.

(** ** Accounts *)

Section Accounts.

Variable L : libraries.

Lemma User_save_inv (st st' : db) (rq : env) (vu ve : option json) (pw rl : string) :
  User_save L st rq vu ve pw rl = Ok st' ->
  exists cu ce u,
    castString L vu = Ok cu /\ castString L ve = Ok ce /\
    required (option_map trim cu) = Ok (username u) /\
    required (option_map normalize_email ce) = Ok (email u) /\
    pw <> "" /\ password u = pw /\ role u = rl /\ role_allowed rl = true /\
    u_id u = new_id rq /\ u_createdAt u = now rq /\ u_updatedAt u = now rq /\
    reachable st = true /\
    existsb (fun x => orb (N.eqb (u_id x) (u_id u))
                        (orb (String.eqb (username x) (username u))
                             (String.eqb (email x) (email u)))) (users st) = false /\
    st' = mkDb (users st ++ [u]) (books st) (reachable st).
Proof.
  unfold User_save.
  destruct (castString L vu) as [cu|] eqn:Eu; cbn [bind]; [|discriminate].
  destruct (castString L ve) as [ce|] eqn:Ee; cbn [bind]; [|discriminate].
  destruct (required (option_map trim cu)) as [u'|] eqn:Ru; cbn [bind]; [|discriminate].
  destruct (required (option_map normalize_email ce)) as [e'|] eqn:Re; cbn [bind];
    [|discriminate].
  destruct (required (Some pw)) as [p|] eqn:Rp; cbn [bind]; [|discriminate].
  apply required_inv in Rp as [[= <-] Hp].
  destruct (role_allowed rl) eqn:Hrl; cbn [negb]; [|discriminate].
  destruct (reachable st) eqn:Hr; cbn [negb]; [|discriminate].
  destruct (existsb _ _) eqn:Hx; [discriminate|].
  intros [= <-].
  exists cu, ce, (mkUser (new_id rq) u' e' pw rl (now rq) (now rq)).
  cbn. split_ands; try assumption; reflexivity.
Qed.

Lemma register_success_inv (st st' : db) (rq : env) (req : object) (m : body) :
  register L st rq req = (st', send 201 m) ->
  User_findOne_email L st (req !! "email") = Ok None /\
  m = Message "User registered successfully" /\
  exists pw,
    req !! "password" = Some (JStr pw) /\
    User_save L st rq (req !! "username") (req !! "email")
      (bcrypt_hashpw L pw 10 (salt rq)) "user" = Ok st'.
Proof.
  unfold register, uncaught.
  destruct (orb _ _); [discriminate|].
  destruct (User_findOne_email L st (req !! "email")) as [[x|]|err]; cbn [bind];
    try discriminate.
  unfold bcrypt_hash.
  destruct (req !! "password") as [[| | |pw| |]|]; cbn [bind]; try discriminate.
  destruct (User_save L st rq _ _ _ _) as [s1|err] eqn:Es; cbn [bind];
    try discriminate.
  unfold send. intros [= <- <-]. split_ands; try reflexivity. eauto.
Qed.

Lemma normalize_of_required (ce : option string) (s : string) :
  required (option_map normalize_email ce) = Ok s ->
  s <> "" /\ normalize_email s = s /\
  forall e, ce = Some e -> s = normalize_email e.
Proof.
  intros H. apply required_inv in H as [H Hne].
  destruct ce as [e|]; [|discriminate]. cbn in H. injection H as <-.
  split_ands; [assumption | apply normalize_email_idem | now intros ? [= ->]].
Qed.

(** X1.  A successful registration adds exactly one user at the end of the
    collection: the role is "user" whatever the request says, the stored
    password is the bcrypt hash of the given one with cost 10, user name
    and email are stored trimmed (the email also in lower case), and the
    new user shares neither identifier nor user name nor email with a
    stored one.  The books are untouched. *)
Theorem register_created_user
    (st st' : db) (rq : env) (req : object) (m : body) :
  register L st rq req = (st', send 201 m) ->
  exists u pw,
    users st' = (users st ++ [u])%list /\ books st' = books st
    /\ req !! "password" = Some (JStr pw)
    /\ password u = bcrypt_hashpw L pw 10 (salt rq)
    /\ role u = "user"
    /\ u_id u = new_id rq /\ u_createdAt u = now rq
    /\ user_wellformed u
    /\ (forall n, req !! "username" = Some (JStr n) -> username u = trim n)
    /\ (forall e, req !! "email" = Some (JStr e) -> email u = normalize_email e)
    /\ (forall x, In x (users st) ->
          u_id x <> u_id u /\ username x <> username u /\ email x <> email u).
Proof.
  intros H. apply register_success_inv in H as (_ & _ & pw & Hpw & Hs).
  apply User_save_inv in Hs
    as (cu & ce & u & Cu & Ce & Ru & Re & Hp & Hpw' & Hrl & _ & Hid & Hc & _ & _ & Hx & ->).
  exists u, pw. cbn [users books].
  destruct (normalize_of_required _ _ Re) as (He1 & He2 & He3).
  pose proof (required_inv _ _ Ru) as [Ru1 Ru2].
  destruct (option_map_trim_inv _ _ Ru1) as (Ru3 & n0 & -> & Ru4).
  split_ands; try assumption; try reflexivity.
  - unfold user_wellformed. rewrite Hpw', Hrl. split_ands; auto.
  - intros n E. rewrite E in Cu. cbn in Cu. now injection Cu as <-.
  - intros e E. rewrite E in Ce. cbn in Ce. injection Ce as <-. now apply He3.
  - intros x Hin. pose proof (existsb_false_forall _ _ Hx x Hin) as F. cbn in F.
    apply orb_false_elim in F as [F1 F2]. apply orb_false_elim in F2 as [F2 F3].
    split_ands.
    + now apply N.eqb_neq.
    + now apply String.eqb_neq.
    + now apply String.eqb_neq.
Qed.

(** X2.  Registering and then logging in: after a successful registration, a
    login with the same password and the same email up to letter case and
    surrounding white space finds the new user and, when the token is
    signed, answers 200 with the token and the summary of that user. *)
Theorem register_then_login
    (st st' : db) (rq rq' : env) (req req' : object) (m : body)
    (e e' pw tok : string) :
  register L st rq req = (st', send 201 m) ->
  req !! "email" = Some (JStr e) ->
  req !! "password" = Some (JStr pw) ->
  req' !! "email" = Some (JStr e') ->
  normalize_email e' = normalize_email e ->
  req' !! "password" = Some (JStr pw) ->
  bcrypt_check L pw (bcrypt_hashpw L pw 10 (salt rq)) = true ->
  jwt_sign L (new_id rq, "user") (JWT_SECRET L) "1h" (now rq') = Ok tok ->
  exists name,
    login L st' rq' req'
    = (st', send 200
              (LoginData tok (mkSummary (new_id rq) name (normalize_email e) "user")))
    /\ forall n, req !! "username" = Some (JStr n) -> name = trim n.
Proof.
  intros H He Hpw He' Hn Hpw' Hck Hsg.
  apply register_success_inv in H as (Hf & _ & pw0 & Hpw0 & Hs).
  rewrite Hpw in Hpw0. injection Hpw0 as <-.
  apply User_save_inv in Hs
    as (cu & ce & u & Cu & Ce & Ru & Re & _ & Hp & Hrl & _ & Hid & _ & _ & Hr & _ & ->).
  rewrite He in Ce, Hf. cbn in Ce. injection Ce as <-.
  destruct (normalize_of_required _ _ Re) as (_ & _ & He3).
  specialize (He3 e eq_refl).
  unfold User_findOne_email in Hf. rewrite Hr in Hf. injection Hf as Hf.
  exists (username u). split.
  - unfold login, uncaught, User_findOne_email. cbn [reachable users].
    rewrite Hr, He', Hn.
    rewrite (find_app_last _ _ u Hf) by (rewrite He3; apply String.eqb_refl).
    cbn [bind]. unfold bcrypt_compare. rewrite Hpw', Hp, Hck. cbn [bind negb].
    rewrite Hid, Hrl, Hsg. cbn [bind]. now rewrite He3.
  - intros n E. rewrite E in Cu. cbn in Cu. injection Cu as <-.
    apply required_inv in Ru as [Ru _]. cbn in Ru. now injection Ru.
Qed.

(** X3.  Login answers 200 only for a stored user whose email is the given
    one once normalized and whose stored hash bcrypt accepts for the given
    password, a string; the summary is that user's, and the store is not
    changed. *)
Theorem login_success_sound
    (st st' : db) (rq : env) (req : object) (e tok : string) (s : user_summary) :
  req !! "email" = Some (JStr e) ->
  login L st rq req = (st', send 200 (LoginData tok s)) ->
  st' = st
  /\ exists u pw,
       In u (users st) /\ email u = normalize_email e
       /\ req !! "password" = Some (JStr pw)
       /\ bcrypt_check L pw (password u) = true
       /\ s = mkSummary (u_id u) (username u) (email u) (role u)
       /\ jwt_sign L (u_id u, role u) (JWT_SECRET L) "1h" (now rq) = Ok tok.
Proof.
  intros He H. apply login_success_inv in H as (u & Hf & Hc & Hs & -> & ->).
  split; [reflexivity|].
  rewrite He in Hf. unfold User_findOne_email in Hf.
  destruct (reachable st); [|discriminate]. injection Hf as Hf.
  apply find_some_in in Hf as [Hin Heq]. apply String.eqb_eq in Heq.
  unfold bcrypt_compare in Hc.
  destruct (req !! "password") as [[| | |pw| |]|]; try discriminate.
  injection Hc as Hc. exists u, pw. split_ands; auto.
Qed.

End Accounts.

(** ** What a request can change *)

Lemma NoDup_snoc {A : Type} (l : list A) (a : A) :
  List.NoDup l -> ~ In a l -> List.NoDup (l ++ [a]).
Proof.
  induction l as [|x l IH]; simpl; intros Hn Ha.
  - constructor; [tauto | constructor].
  - inversion Hn as [|? ? Hx Hl]; subst. constructor.
    + rewrite in_app_iff. simpl. intros [H | [H | []]]; [tauto|]. subst. tauto.
    + apply IH; tauto.
Qed.

Lemma Forall_snoc {A : Type} (P : A -> Prop) (l : list A) (a : A) :
  Forall P l -> P a -> Forall P (l ++ [a]).
Proof.
  intros Hl Ha. apply List.Forall_forall. intros x Hx.
  apply in_app_iff in Hx as [Hx | [<- | []]]; [|assumption].
  rewrite List.Forall_forall in Hl. now apply Hl.
Qed.

Section Requests.

Variable L : libraries.

Lemma register_store (st : db) (rq : env) (req : object) :
  fst (register L st rq req) = st
  \/ exists m, register L st rq req = (fst (register L st rq req), send 201 m).
Proof.
  unfold register, uncaught.
  destruct (orb _ _); [now left|].
  destruct (User_findOne_email L st (req !! "email")) as [[x|]|err]; cbn [bind];
    try (now left).
  destruct (bcrypt_hash L (req !! "password") 10 (salt rq)) as [h|err]; cbn [bind];
    try (now left).
  destruct (User_save L st rq _ _ _ _) as [s1|err]; cbn [bind]; [|now left].
  right. eexists. reflexivity.
Qed.

Lemma login_store (st : db) (rq : env) (req : object) :
  fst (login L st rq req) = st.
Proof.
  unfold login, uncaught.
  destruct (User_findOne_email L st (req !! "email")) as [[u|]|err]; cbn [bind];
    try reflexivity.
  destruct (bcrypt_compare L (req !! "password") (password u)) as [[|]|err];
    cbn [bind negb]; try reflexivity.
  now destruct (jwt_sign L _ _ _ _).
Qed.

Lemma createBook_store (st : db) (rq : env) (req : object) :
  fst (createBook L st rq req) = st
  \/ exists b, createBook L st rq req
               = (fst (createBook L st rq req), send 201 (BookData b)).
Proof.
  destruct (createBook_cases L st rq req)
    as [[_ E] | (_ & _ & _ & [(s1 & b & _ & E) | E])]; rewrite E; cbn [fst];
    [now left | right; now exists b | now left].
Qed.

Lemma updateBook_store (st : db) (rq : env) (i : string) (req : object) :
  fst (updateBook L st rq i req) = st
  \/ exists b, updateBook L st rq i req
               = (fst (updateBook L st rq i req), send 200 (BookData b)).
Proof.
  unfold updateBook, try_catch.
  destruct (Book_findByIdAndUpdate L st rq i _ _ _) as [[s1 [b|]]|err];
    cbn [bind fst snd]; [right; now exists b | now left | now left].
Qed.

Lemma deleteBook_store (st : db) (i : string) :
  fst (deleteBook L st i) = st
  \/ deleteBook L st i
     = (fst (deleteBook L st i),
        send 200 (SuccessMessage true "Book deleted successfully")).
Proof.
  unfold deleteBook, try_catch.
  destruct (Book_findByIdAndDelete L st i) as [[s1 [b|]]|err];
    cbn [bind fst snd]; [now right | now left | now left].
Qed.

Lemma guarded_store (st : db) (rq : env) (h : option string)
    (k : decoded -> db * outcome) :
  fst (guarded L st rq h k) = st
  \/ exists d, authMiddleware L (now rq) h = Next d /\ guarded L st rq h k = k d.
Proof.
  unfold guarded. destruct (authMiddleware L (now rq) h) as [r|d|e];
    [now left | right; now exists d | now left].
Qed.

(** X5.  The books change only behind the guard: a request after which the
    collection of books differs is a POST, PUT or DELETE on books whose
    Authorization header has "Bearer" as its first piece and, as its
    second, a token that jsonwebtoken verifies at the time of the
    request. *)
Theorem catalog_changes_need_token (st : db) (rq : env) (r : request) :
  books (fst (app L st rq r)) <> books st ->
  match r with
  | POST_books _ _ | PUT_books _ _ _ | DELETE_books _ _ => True
  | _ => False
  end
  /\ exists s tok d,
       authorization_of r = Some (Some s)
       /\ nth_error (split " " s) 0 = Some "Bearer"
       /\ nth_error (split " " s) 1 = Some tok
       /\ jwt_verify L tok (JWT_SECRET L) (now rq) = Ok d.
Proof.
  assert (G : forall h k,
             books (fst (guarded L st rq h k)) <> books st ->
             exists s tok d,
               Some h = Some (Some s)
               /\ nth_error (split " " s) 0 = Some "Bearer"
               /\ nth_error (split " " s) 1 = Some tok
               /\ jwt_verify L tok (JWT_SECRET L) (now rq) = Ok d).
  { intros h k Hk. destruct (guarded_store st rq h k) as [E | (d & Hd & _)].
    - now rewrite E in Hk.
    - apply authMiddleware_next_iff in Hd as (s & tok & -> & H0 & H1 & _ & Hv).
      now exists s, tok, d. }
  destruct r as [body0|body0|authorization|q|authorization body0
                |id authorization body0|id authorization];
    cbn [app authorization_of]; intros H.
  - exfalso. apply H.
    destruct (register_store st rq body0) as [E | [m E]]; [now rewrite E|].
    apply register_success_inv in E as (_ & _ & pw & _ & Hs).
    apply User_save_inv in Hs
      as (? & ? & ? & _ & _ & _ & _ & _ & _ & _ & _ & _ & _ & _ & _ & _ & E).
    now rewrite E.
  - exfalso. apply H. now rewrite login_store.
  - exfalso. apply H. unfold guarded.
    now destruct (authMiddleware L (now rq) authorization).
  - exfalso. apply H. destruct (getAllBooks_responds L st q) as [x E].
    now rewrite E.
  - split; [exact I | now apply G in H].
  - split; [exact I | now apply G in H].
  - split; [exact I | now apply G in H].
Qed.

(** X6.  The users change only by a registration that answers 201: no other
    request, and no refused registration, adds, alters or removes a
    user. *)
Theorem users_change_only_by_registration (st : db) (rq : env) (r : request) :
  users (fst (app L st rq r)) <> users st ->
  exists req,
    r = POST_auth_register req
    /\ snd (app L st rq r) = send 201 (Message "User registered successfully").
Proof.
  assert (G : forall h k,
             (forall d, users (fst (k d)) = users st) ->
             users (fst (guarded L st rq h k)) = users st).
  { intros h k Hk. destruct (guarded_store st rq h k) as [E | (d & _ & E)];
      rewrite E; [reflexivity | apply Hk]. }
  destruct r as [body0|body0|authorization|q|authorization body0
                |id authorization body0|id authorization];
    cbn [app]; intros H.
  - exists body0. split; [reflexivity|].
    destruct (register_store st rq body0) as [E | [m E]];
      [now rewrite E in H|].
    pose proof (register_success_inv _ _ _ _ _ _ E) as (_ & -> & _).
    now rewrite E.
  - exfalso. apply H. now rewrite login_store.
  - exfalso. apply H. now apply G.
  - exfalso. apply H. destruct (getAllBooks_responds L st q) as [x E].
    now rewrite E.
  - exfalso. apply H. apply G. intros _.
    destruct (createBook_store st rq body0) as [E | [b E]]; [now rewrite E|].
    apply createBook_success_inv, Book_save_inv in E
      as (? & ? & _ & _ & _ & _ & _ & _ & _ & _ & _ & _ & E).
    now rewrite E.
  - exfalso. apply H. apply G. intros _.
    destruct (updateBook_store st rq id body0) as [E | [b E]]; [now rewrite E|].
    apply updateBook_success_inv in E
      as (? & ? & ? & ? & _ & _ & _ & _ & _ & _ & _ & E).
    now rewrite E.
  - exfalso. apply H. apply G. intros _.
    destruct (deleteBook_cases L st id)
      as [[E _] | [(i & _ & _ & _ & E) | (i & b & _ & _ & _ & E)]];
      now rewrite E.
Qed.

Lemma User_save_keeps_ok (st st' : db) (rq : env) (vu ve : option json)
    (pw rl : string) :
  store_ok st -> User_save L st rq vu ve pw rl = Ok st' -> store_ok st'.
Proof.
  intros ((Hi & Hn & He) & Hw & Hb & Hbw) H.
  apply User_save_inv in H
    as (cu & ce & u & _ & _ & Ru & Re & Hp & Hpw & Hrl & Hra & _ & _ & _ & _ & Hx & ->).
  assert (Hfresh : forall x, In x (users st) ->
            u_id x <> u_id u /\ username x <> username u /\ email x <> email u).
  { intros x Hin. pose proof (existsb_false_forall _ _ Hx x Hin) as F. cbn in F.
    apply orb_false_elim in F as [F1 F2]. apply orb_false_elim in F2 as [F2 F3].
    split_ands; [now apply N.eqb_neq | now apply String.eqb_neq
                | now apply String.eqb_neq]. }
  unfold store_ok, users_unique. cbn [users books]. rewrite !map_app. cbn [map].
  split_ands; try assumption.
  - apply NoDup_snoc; [assumption|]. intros Hin.
    apply in_map_iff in Hin as (x & E & Hin).
    destruct (Hfresh x Hin) as (F1 & F2 & F3). congruence.
  - apply NoDup_snoc; [assumption|]. intros Hin.
    apply in_map_iff in Hin as (x & E & Hin).
    destruct (Hfresh x Hin) as (F1 & F2 & F3). congruence.
  - apply NoDup_snoc; [assumption|]. intros Hin.
    apply in_map_iff in Hin as (x & E & Hin).
    destruct (Hfresh x Hin) as (F1 & F2 & F3). congruence.
  - apply Forall_snoc; [assumption|].
    destruct (normalize_of_required _ _ Re) as (He1 & He2 & _).
    apply required_inv in Ru as [Ru Hne].
    destruct (option_map_trim_inv _ _ Ru) as [Ht _].
    unfold user_wellformed. rewrite Hpw, Hrl. split_ands; assumption.
Qed.

Lemma Book_save_keeps_ok (st st' : db) (rq : env) (vt va vy : option json) (b : Book) :
  store_ok st -> Book_save L st rq vt va vy = Ok (st', b) -> store_ok st'.
Proof.
  intros (Hu & Hw & Hb & Hbw) H.
  apply Book_save_inv in H
    as (t & a & _ & _ & _ & Rt & Ra & Hid & _ & _ & _ & Hx & ->).
  unfold store_ok, users_unique in *. cbn [users books]. rewrite map_app. cbn [map].
  split_ands; try tauto.
  - apply NoDup_snoc; [assumption|]. rewrite Hid. now apply id_fresh_not_in.
  - apply Forall_snoc; [assumption|]. exact (wellformed_of_required t a b Rt Ra).
Qed.

Lemma updateBook_keeps_ok (st st' : db) (rq : env) (i : string) (req : object)
    (b : Book) :
  store_ok st ->
  updateBook L st rq i req = (st', send 200 (BookData b)) ->
  store_ok st'.
Proof.
  intros (Hu & Hw & Hb & Hbw) H.
  apply updateBook_success_inv in H
    as (old & t & a & y & _ & _ & Hf & Ht & Ha & _ & Eb & ->).
  destruct (find_id_some _ _ _ Hf) as [Hin _].
  rewrite List.Forall_forall in Hbw. pose proof (Hbw old Hin) as (O1 & O2 & O3 & O4).
  assert (Wb : book_wellformed b).
  { subst b. unfold book_wellformed. cbn [title author].
    destruct (update_string_inv L _ _ Ht) as [[_ ->] | (s1 & -> & N1 & T1 & _)];
      destruct (update_string_inv L _ _ Ha) as [[_ ->] | (s2 & -> & N2 & T2 & _)];
      cbn [or_old]; split_ands; assumption. }
  unfold store_ok, users_unique in *. cbn [users books].
  rewrite ids_replace_book. split_ands; try tauto.
  apply List.Forall_forall. intros x Hx.
  apply In_replace_book in Hx as [-> | Hx]; [assumption | now apply Hbw].
Qed.

Lemma remove_book_keeps_ok (st : db) (i : oid) :
  store_ok st ->
  store_ok (mkDb (users st) (remove_book i (books st)) (reachable st)).
Proof.
  intros (Hu & Hw & Hb & Hbw).
  unfold store_ok, users_unique in *. cbn [users books].
  split_ands; try tauto.
  - exact (proj1 (ids_remove_book i _ Hb)).
  - apply List.Forall_forall. intros x Hx. apply In_remove_book in Hx.
    rewrite List.Forall_forall in Hbw. now apply Hbw.
Qed.

(** X7.  Every request, whatever its outcome, keeps the store well formed:
    unique identifiers, user names and emails of the users, unique
    identifiers of the books, and in every record the fields the schemas
    require, trimmed and not empty, emails in their normal form and roles
    among the allowed ones. *)
Theorem app_keeps_store_ok (st : db) (rq : env) (r : request) :
  store_ok st -> store_ok (fst (app L st rq r)).
Proof.
  intros Hok.
  assert (G : forall h k,
             (forall d, store_ok (fst (k d))) ->
             store_ok (fst (guarded L st rq h k))).
  { intros h k Hk. destruct (guarded_store st rq h k) as [E | (d & _ & E)];
      rewrite E; [assumption | apply Hk]. }
  destruct r as [req|req|h|q|h req|i h req|i h]; cbn [app].
  - destruct (register_store st rq req) as [E | [m E]]; [now rewrite E|].
    apply register_success_inv in E as (_ & _ & pw & _ & Hs).
    exact (User_save_keeps_ok _ _ _ _ _ _ _ Hok Hs).
  - now rewrite login_store.
  - now apply G.
  - destruct (getAllBooks_responds L st q) as [x E]. now rewrite E.
  - apply G. intros _.
    destruct (createBook_store st rq req) as [E | [b E]]; [now rewrite E|].
    apply createBook_success_inv in E.
    exact (Book_save_keeps_ok _ _ _ _ _ _ _ Hok E).
  - apply G. intros _.
    destruct (updateBook_store st rq i req) as [E | [b E]]; [now rewrite E|].
    exact (updateBook_keeps_ok _ _ _ _ _ _ Hok E).
  - apply G. intros _.
    destruct (deleteBook_cases L st i)
      as [[E _] | [(id & _ & _ & _ & E) | (id & b & _ & _ & _ & E)]];
      rewrite E; cbn [fst]; [assumption | assumption |].
    now apply remove_book_keeps_ok.
Qed.

(** X9.  A store out of reach is reported as a fault of the client by the
    three handlers that change the catalog, status 400, and as a fault of
    the server by the listing, status 500; nothing is changed. *)
Theorem unreachable_store_statuses
    (st : db) (rq : env) (i : string) (req : object) (q : query) :
  reachable st = false ->
  (exists b, createBook L st rq req = (st, send 400 b))
  /\ updateBook L st rq i req = (st, send 400 (Message "Invalid ID or update data"))
  /\ deleteBook L st i = (st, send 400 (Message "Invalid ID"))
  /\ getAllBooks L st q = (st, send 500 (SuccessMessage false "Failed to fetch books")).
Proof.
  intros Hr. split_ands.
  - destruct (createBook_cases L st rq req)
      as [[_ E] | (_ & _ & _ & [(s1 & b & Hs & E) | E])]; rewrite E; eauto.
    apply Book_save_inv in Hs as (? & ? & _ & _ & _ & _ & _ & _ & _ & _ & H & _).
    congruence.
  - unfold updateBook, try_catch, Book_findByIdAndUpdate.
    destruct (castObjectId L i); [|reflexivity].
    destruct (update_string L (req !! "title")); cbn [bind]; [|reflexivity].
    destruct (update_string L (req !! "author")); cbn [bind]; [|reflexivity].
    destruct (update_number L (req !! "year")); cbn [bind]; [|reflexivity].
    now rewrite Hr.
  - unfold deleteBook, try_catch, Book_findByIdAndDelete.
    destruct (castObjectId L i); [|reflexivity]. now rewrite Hr.
  - unfold getAllBooks, list_books, try_catch, Book_find. now rewrite Hr.
Qed.

End Requests.

(** ** Seeding *)

Section SeedProperties.

Variable L : libraries.

(** The ordered insert of documents whose identifiers are new and
    pairwise different puts all of them at the end, in order. *)
Lemma insert_ordered_fresh (l stored : list Book) :
  List.NoDup (map b_id l) ->
  (forall b, In b l -> ~ In (b_id b) (map b_id stored)) ->
  insert_ordered l stored = ((stored ++ l)%list, Ok tt).
Proof.
  revert stored. induction l as [|b l IH]; intros stored Hn Hf.
  - cbn. now rewrite app_nil_r.
  - cbn [insert_ordered]. inversion Hn as [|? ? Hb Hl]; subst.
    destruct (existsb (fun x => N.eqb (b_id x) (b_id b)) stored) eqn:He.
    + exfalso. apply existsb_exists in He as (x & Hx & E).
      apply N.eqb_eq in E. apply (Hf b (or_introl eq_refl)).
      rewrite <- E. now apply in_map.
    + rewrite IH.
      * now rewrite <- app_assoc.
      * assumption.
      * intros x Hx. rewrite map_app, in_app_iff. cbn [map In].
        intros [H | [H | []]].
        -- now apply (Hf x (or_intror Hx)).
        -- apply Hb. rewrite H. now apply in_map.
Qed.

Lemma validate_seed_books (clock : Z) (gen : nat -> oid) :
  validate_all L clock gen 0 seed_books = Ok (seeded_at clock gen).
Proof. reflexivity. Qed.

(** X23.  Each run of the seeding script on a store in reach, with identifiers
    that are new and pairwise different, puts the five books at the end
    of the collection without looking at what is stored: the stored
    books and the users stay, and books with the same titles are added
    again by a second run.  With the store out of reach nothing is
    changed and the error is only logged. *)
Theorem seed_appends_five_books (st : db) (clock : Z) (gen : nat -> oid) :
  (reachable st = true ->
   List.NoDup (map gen (seq 0 5)) ->
   (forall k, (k < 5)%nat -> ~ In (gen k) (map b_id (books st))) ->
   seed L st clock gen
   = (mkDb (users st) (books st ++ seeded_at clock gen) (reachable st),
      ["Connected to MongoDB"; "Books inserted successfully"]))
  /\ (reachable st = false -> seed L st clock gen = (st, ["Seeding error:"])).
Proof.
  split.
  - intros Hr Hn Hf. unfold seed, Book_insertMany.
    rewrite Hr, validate_seed_books.
    rewrite insert_ordered_fresh; [reflexivity | exact Hn |].
    intros b Hb. cbn in Hb.
    destruct Hb as [<- | [<- | [<- | [<- | [<- | []]]]]]; cbn [b_id];
      apply Hf; lia.
  - intros Hr. unfold seed. now rewrite Hr.
Qed.

End SeedProperties.

(** ** The identity a token carries *)

Lemma split_sep_app (sep : ascii) (a b : string) :
  no_char sep a = true ->
  split sep (a +:+ String sep b) = a :: split sep b.
Proof.
  induction a as [|c a IH]; intros H.
  - rewrite append_empty. simpl. now rewrite Ascii.eqb_refl.
  - rewrite append_cons. simpl in *.
    apply andb_prop in H as [Hc Ha].
    destruct (Ascii.eqb c sep); [discriminate|].
    now rewrite (IH Ha).
Qed.

Lemma split_sep_whole (sep : ascii) (a : string) :
  no_char sep a = true -> split sep a = [a].
Proof.
  induction a as [|c a IH]; simpl; intros H; [reflexivity|].
  apply andb_prop in H as [Hc Ha].
  destruct (Ascii.eqb c sep); [discriminate|].
  now rewrite (IH Ha).
Qed.

Lemma no_space_no_char (s : string) : no_space s = no_char " " s.
Proof. induction s as [|c s IH]; simpl; [reflexivity | now rewrite IH]. Qed.

Lemma no_char_app (c : ascii) (a b : string) :
  no_char c (a +:+ b) = andb (no_char c a) (no_char c b).
Proof.
  induction a as [|x a IH]; [reflexivity|].
  rewrite append_cons. simpl. rewrite IH. now rewrite andb_assoc.
Qed.

Lemma uint_no_char (c : ascii) (d : Decimal.uint) :
  (c = "." \/ c = " ")%char -> no_char c (NilEmpty.string_of_uint d) = true.
Proof. intros [-> | ->]; induction d; simpl; auto. Qed.

Lemma dec_no_char (c : ascii) (z : Z) :
  (c = "." \/ c = " ")%char -> no_char c (Signed.dec z) = true.
Proof.
  intros H. unfold Signed.dec, NilEmpty.string_of_int.
  destruct (Z.to_int z); simpl.
  - now apply uint_no_char.
  - rewrite (uint_no_char c _ H). now destruct H as [-> | ->].
Qed.

Lemma hex_no_char (c : ascii) (s : string) :
  (c = "." \/ c = " ")%char -> no_char c (Signed.hex s) = true.
Proof.
  intros H. induction s as [|x s IH]; [reflexivity|].
  cbn [Signed.hex no_char]. rewrite IH, andb_true_r.
  destruct H as [-> | ->];
    destruct x as [[] [] [] [] [] [] [] []]; reflexivity.
Qed.

Lemma unhex_hex (s : string) : Signed.unhex (Signed.hex s) = Some s.
Proof.
  induction s as [|x s IH]; [reflexivity|].
  cbn [Signed.hex Signed.unhex]. rewrite IH.
  destruct x as [[] [] [] [] [] [] [] []]; reflexivity.
Qed.

Lemma undec_dec (z : Z) : Signed.undec (Signed.dec z) = Some z.
Proof.
  unfold Signed.undec, Signed.dec. rewrite NilEmpty.isi. simpl.
  now rewrite DecimalZ.of_to.
Qed.

Lemma signed_decode_encode (id : oid) (role : string) (iat exp : Z) (k : string) :
  Signed.decode (Signed.encode id role iat exp k)
  = Some (mkDecoded id role iat exp, k).
Proof.
  unfold Signed.decode, Signed.encode.
  rewrite (split_sep_app "." (String "t" (Signed.dec exp)))
    by (cbn [no_char]; now rewrite dec_no_char by auto).
  rewrite (split_sep_app "." (Signed.dec iat)) by (apply dec_no_char; auto).
  rewrite (split_sep_app "." (Signed.dec (Z.of_N id))) by (apply dec_no_char; auto).
  rewrite (split_sep_app "." (Signed.hex role)) by (apply hex_no_char; auto).
  rewrite (split_sep_whole "." (Signed.hex k)) by (apply hex_no_char; auto).
  rewrite !undec_dec, !unhex_hex. now rewrite N2Z.id.
Qed.

Lemma signed_encode_no_space (id : oid) (role : string) (iat exp : Z) (k : string) :
  no_space (Signed.encode id role iat exp k) = true.
Proof.
  rewrite no_space_no_char. unfold Signed.encode.
  repeat (rewrite no_char_app; cbn [no_char]).
  rewrite !dec_no_char, !hex_no_char by auto. reflexivity.
Qed.

Lemma signed_expiry_contract : jwt_expiry_contract Signed.libs.
Proof.
  intros payload secret span ttl iat tok Hspan Hsign.
  cbn [jwt_sign jwt_verify Signed.libs] in *. unfold Signed.sign in Hsign.
  rewrite Hspan in Hsign. injection Hsign as <-.
  split; [discriminate|]. split; [apply signed_encode_no_space|].
  intros clock. unfold Signed.verify. rewrite signed_decode_encode.
  rewrite String.eqb_refl. cbn [negb d_exp]. split; intros H.
  - destruct (Z.ltb_spec clock (iat + ttl)); [eauto | lia].
  - destruct (Z.ltb_spec clock (iat + ttl)); [lia | eauto].
Qed.

Lemma signed_payload_contract : jwt_payload_contract Signed.libs.
Proof.
  intros payload secret span iat tok clock d Hsign Hver.
  cbn [jwt_sign jwt_verify Signed.libs] in *.
  unfold Signed.sign in Hsign. destruct (timespan span) as [ttl|]; [|discriminate].
  injection Hsign as <-. unfold Signed.verify in Hver.
  rewrite signed_decode_encode, String.eqb_refl in Hver. cbn [negb d_exp] in Hver.
  destruct (clock <? iat + ttl); [|discriminate].
  injection Hver as <-. now split.
Qed.

Section Identity.

Variable L : libraries.

(** X4.  The token of a login names the user who logged in: whenever the
    guard lets a header with this token through, at whatever time, the
    identity it hands on has the id and the role of that user; and
    GET /api/auth/me answers 200 with exactly this identity on any store,
    without looking the user up. *)
Theorem login_token_carries_identity
    (st st' : db) (rq : env) (req : object) (tok secret : string)
    (s : user_summary) (clock : Z) (h : string) (d : decoded) :
  jwt_payload_contract L ->
  JWT_SECRET L = Some secret ->
  login L st rq req = (st', send 200 (LoginData tok s)) ->
  nth_error (split " " h) 1 = Some tok ->
  authMiddleware L clock (Some h) = Next d ->
  d_id d = s_id s /\ d_role d = s_role s
  /\ forall st2 rq2, now rq2 = clock ->
       app L st2 rq2 (GET_auth_me (Some h)) = (st2, send 200 (Me d)).
Proof.
  intros HC Hsec Hlogin Htok Hguard.
  apply login_success_inv in Hlogin as (u & _ & _ & Hsign & -> & _).
  pose proof Hguard as Hnext.
  apply authMiddleware_next_iff in Hguard as (h' & tok' & [= <-] & _ & H1 & _ & Hv).
  rewrite Htok in H1. injection H1 as <-.
  rewrite Hsec in Hsign, Hv.
  destruct (HC _ _ _ _ _ _ _ Hsign Hv) as [Hid Hrole]. cbn in Hid, Hrole.
  split_ands; try assumption.
  intros st2 rq2 <-. cbn [app]. unfold guarded. now rewrite Hnext.
Qed.

End Identity.

(** ** The further properties on concrete requests *)

Lemma sample_store_ok : store_ok Sample.store.
Proof.
  unfold store_ok, users_unique. cbn [Sample.store users books].
  split_ands.
  - repeat constructor; cbn; intuition discriminate.
  - repeat constructor; cbn; intuition discriminate.
  - repeat constructor; cbn; intuition discriminate.
  - repeat constructor; try discriminate; reflexivity.
  - repeat constructor; cbn; intuition discriminate.
  - repeat constructor; try discriminate; reflexivity.
Qed.

Lemma listing_page_shape_witness :
  snd (getAllBooks Sample.libs Sample.store (mkQuery (Some "2") (Some "2") None))
    = send 200 (BookPage (firstn 2 (skipn 2 (sort_desc Sample.seeded))) 2 2 3 5)
  /\ Z.of_nat (length (firstn 2 (skipn 2 (sort_desc Sample.seeded)))) <= 2
  /\ newest_first (firstn 2 (skipn 2 (sort_desc Sample.seeded))).
Proof.
  assert (H : snd (getAllBooks Sample.libs Sample.store
                     (mkQuery (Some "2") (Some "2") None))
              = send 200 (BookPage (firstn 2 (skipn 2 (sort_desc Sample.seeded)))
                            2 2 3 5)) by (vm_compute; reflexivity).
  pose proof (listing_page_shape Sample.libs _ _ _ _ _ _ _ H) as (H1 & _ & H3 & _).
  split_ands; assumption.
Defined.

Lemma listing_pages_cover_witness :
  flat_map
    (fun k => page_items (snd (list_books Sample.libs Timeline.store (Z.of_nat k) 2 "")))
    (seq 1 3)
  = rev Timeline.shelf.
Proof.
  refine (listing_pages_cover Sample.libs Timeline.store 2 "" (fun _ => true)
            (rev Timeline.shelf) eq_refl eq_refl _ _ _ _).
  - lia.
  - repeat constructor; cbn; intuition discriminate.
  - apply Permutation_sym, Permutation_rev.
  - cbn. split_ands; repeat constructor; cbn; lia.
Defined.

Lemma listing_beyond_last_page_witness :
  getAllBooks Sample.libs Sample.store (mkQuery (Some "9") (Some "2") None)
  = (Sample.store, send 200 (BookPage [] 9 2 3 5)).
Proof.
  exact (listing_beyond_last_page Sample.libs Sample.store
           (mkQuery (Some "9") (Some "2") None) (fun _ => true)
           eq_refl eq_refl eq_refl).
Defined.

Lemma listing_blank_search_witness :
  getAllBooks Sample.libs Sample.store (mkQuery None None (Some "   "))
  = getAllBooks Sample.libs Sample.store (mkQuery None None None).
Proof.
  exact (proj1 (listing_blank_search Sample.libs Sample.store None None "   "
                  eq_refl)).
Defined.

Lemma createBook_created_record_witness :
  createBook Sample.libs Sample.store Sample.rq Demo.dune
    = (Demo.with_dune, send 201 (BookData Demo.dune_stored))
  /\ books Demo.with_dune = (books Sample.store ++ [Demo.dune_stored])%list
  /\ title Demo.dune_stored = trim " Dune ".
Proof.
  assert (H : createBook Sample.libs Sample.store Sample.rq Demo.dune
              = (Demo.with_dune, send 201 (BookData Demo.dune_stored)))
    by (vm_compute; reflexivity).
  pose proof (createBook_created_record Sample.libs _ _ _ _ _ H)
    as (H1 & _ & _ & _ & _ & _ & _ & H8 & _).
  split_ands; [exact H | exact H1 | exact (H8 " Dune " eq_refl)].
Defined.

Lemma created_book_heads_the_listing_witness :
  exists rest tp,
    getAllBooks Sample.libs Demo.with_dune (mkQuery None (Some "2") None)
    = (Demo.with_dune, send 200 (BookPage (Demo.dune_stored :: rest) 1 2 tp 6)).
Proof.
  assert (H : createBook Sample.libs Sample.store Sample.rq Demo.dune
              = (Demo.with_dune, send 201 (BookData Demo.dune_stored)))
    by (vm_compute; reflexivity).
  assert (Hold : Forall (fun x => createdAt x < now Sample.rq) (books Sample.store))
    by (repeat constructor).
  exact (created_book_heads_the_listing Sample.libs _ _ _ _ _ (Some "2") H Hold).
Defined.

Lemma create_then_delete_restores_witness :
  deleteBook Sample.libs Demo.with_dune "6"
  = (Sample.store, send 200 (SuccessMessage true "Book deleted successfully")).
Proof.
  assert (H : createBook Sample.libs Sample.store Sample.rq Demo.dune
              = (Demo.with_dune, send 201 (BookData Demo.dune_stored)))
    by (vm_compute; reflexivity).
  exact (create_then_delete_restores Sample.libs _ _ _ _ _ "6" H eq_refl).
Defined.

Lemma deleteBook_removes_one_witness :
  deleteBook Sample.libs Sample.store "3"
    = (Demo.without_orwell,
       Sent (mkResponse 200 (SuccessMessage true "Book deleted successfully")))
  /\ exists b, In b (books Sample.store)
               /\ S (length (books Demo.without_orwell)) = length (books Sample.store).
Proof.
  assert (H : deleteBook Sample.libs Sample.store "3"
              = (Demo.without_orwell,
                 Sent (mkResponse 200
                         (SuccessMessage true "Book deleted successfully"))))
    by (vm_compute; reflexivity).
  split; [exact H|].
  destruct (deleteBook_removes_one Sample.libs _ _ _ _ H eq_refl)
    as (b & _ & Hin & _ & Hlen & _).
  exists b. split; assumption.
Defined.

Lemma deleteBook_twice_witness :
  deleteBook Sample.libs Demo.without_orwell "3"
  = (Demo.without_orwell, send 404 (Message "Book not found")).
Proof.
  assert (Hn : List.NoDup (map b_id (books Sample.store)))
    by (exact (proj1 (proj2 (proj2 sample_store_ok)))).
  assert (H : deleteBook Sample.libs Sample.store "3"
              = (Demo.without_orwell,
                 send 200 (SuccessMessage true "Book deleted successfully")))
    by (vm_compute; reflexivity).
  exact (deleteBook_twice Sample.libs _ _ _ Hn H).
Defined.

Lemma updateBook_effect_witness :
  updateBook Sample.libs Timeline.store Demo.later "3" Demo.year_only
    = (mkDb [Sample.alice] Timeline.shelf_updated true,
       send 200 (BookData Timeline.orwell_updated))
  /\ exists old before after,
       books Timeline.store = (before ++ old :: after)%list
       /\ Timeline.shelf_updated = (before ++ Timeline.orwell_updated :: after)%list
       /\ In Timeline.orwell_updated Timeline.shelf_updated
       /\ createdAt Timeline.orwell_updated = createdAt old
       /\ title Timeline.orwell_updated = title old.
Proof.
  assert (H : updateBook Sample.libs Timeline.store Demo.later "3" Demo.year_only
              = (mkDb [Sample.alice] Timeline.shelf_updated true,
                 send 200 (BookData Timeline.orwell_updated)))
    by (vm_compute; reflexivity).
  split; [exact H|].
  destruct (updateBook_effect Sample.libs _ _ _ _ _ _ H)
    as (old & before & after & _ & E1 & _ & E2 & Hin & _ & Hc & _ & Ht & _).
  exists old, before, after. split_ands; try assumption.
  apply Ht. reflexivity.
Defined.

Lemma register_created_user_witness :
  register Sample.libs Sample.store Sample.rq Demo.bob
    = (Demo.with_bob, send 201 (Message "User registered successfully"))
  /\ exists u pw, users Demo.with_bob = (users Sample.store ++ [u])%list
                  /\ Demo.bob !! "password" = Some (JStr pw)
                  /\ role u = "user".
Proof.
  assert (H : register Sample.libs Sample.store Sample.rq Demo.bob
              = (Demo.with_bob, send 201 (Message "User registered successfully")))
    by (vm_compute; reflexivity).
  split; [exact H|].
  destruct (register_created_user Sample.libs _ _ _ _ _ H)
    as (u & pw & H1 & _ & H3 & _ & H5 & _).
  exists u, pw. split_ands; assumption.
Defined.

Lemma register_then_login_witness :
  exists name,
    login Sample.libs Demo.with_bob Demo.later Demo.bob_login
    = (Demo.with_bob,
       send 200 (LoginData "t6600"
                   (mkSummary 6%N name (normalize_email " Bob@Example.com") "user")))
    /\ forall n, Demo.bob !! "username" = Some (JStr n) -> name = trim n.
Proof.
  assert (H : register Sample.libs Sample.store Sample.rq Demo.bob
              = (Demo.with_bob, send 201 (Message "User registered successfully")))
    by (vm_compute; reflexivity).
  exact (register_then_login Sample.libs _ _ _ Demo.later _ Demo.bob_login _
           " Bob@Example.com" "BOB@example.com " "builder" "t6600"
           H eq_refl eq_refl eq_refl eq_refl eq_refl eq_refl eq_refl).
Defined.

Lemma login_success_sound_witness :
  login Sample.libs Sample.store Sample.rq Demo.alice_login
    = (Sample.store,
       send 200 (LoginData "t5600"
                   (mkSummary 1%N "alice" "alice@example.com" "user")))
  /\ exists u pw, In u (users Sample.store)
                  /\ bcrypt_check Sample.libs pw (password u) = true.
Proof.
  assert (H : login Sample.libs Sample.store Sample.rq Demo.alice_login
              = (Sample.store,
                 send 200 (LoginData "t5600"
                             (mkSummary 1%N "alice" "alice@example.com" "user"))))
    by (vm_compute; reflexivity).
  split; [exact H|].
  assert (He : Demo.alice_login !! "email" = Some (JStr "alice@example.com"))
    by reflexivity.
  destruct (login_success_sound Sample.libs Sample.store Sample.store Sample.rq
              Demo.alice_login "alice@example.com" _ _ He H)
    as (_ & u & pw & Hin & _ & _ & Hc & _).
  exists u, pw. split; assumption.
Defined.

Lemma catalog_changes_need_token_witness :
  books (fst (app Sample.libs Sample.store Sample.rq
                (POST_books (Some Demo.bearer) Demo.dune)))
    <> books Sample.store
  /\ exists s tok d,
       Some (Some Demo.bearer) = Some (Some s)
       /\ nth_error (split " " s) 1 = Some tok
       /\ jwt_verify Sample.libs tok (JWT_SECRET Sample.libs) (now Sample.rq) = Ok d.
Proof.
  assert (H : books (fst (app Sample.libs Sample.store Sample.rq
                            (POST_books (Some Demo.bearer) Demo.dune)))
              <> books Sample.store).
  { intros E. apply (f_equal (@length Book)) in E. vm_compute in E. discriminate. }
  split; [exact H|].
  destruct (catalog_changes_need_token Sample.libs _ _ _ H)
    as (_ & s & tok & d & H1 & _ & H3 & H4).
  exists s, tok, d. split_ands; assumption.
Defined.

Lemma users_change_only_by_registration_witness :
  users (fst (app Sample.libs Sample.store Sample.rq (POST_auth_register Demo.bob)))
    <> users Sample.store
  /\ snd (app Sample.libs Sample.store Sample.rq (POST_auth_register Demo.bob))
     = send 201 (Message "User registered successfully").
Proof.
  assert (H : users (fst (app Sample.libs Sample.store Sample.rq
                            (POST_auth_register Demo.bob)))
              <> users Sample.store).
  { intros E. apply (f_equal (@length User)) in E. vm_compute in E. discriminate. }
  split; [exact H|].
  destruct (users_change_only_by_registration Sample.libs _ _ _ H) as (req & _ & E).
  exact E.
Defined.

Lemma app_keeps_store_ok_witness :
  store_ok Sample.store
  /\ store_ok (fst (app Sample.libs Sample.store Sample.rq
                      (POST_books (Some Demo.bearer) Demo.dune))).
Proof.
  split; [exact sample_store_ok|].
  exact (app_keeps_store_ok Sample.libs _ _ _ sample_store_ok).
Defined.

Lemma unreachable_store_statuses_witness :
  deleteBook Sample.libs Demo.offline "3"
    = (Demo.offline, send 400 (Message "Invalid ID"))
  /\ getAllBooks Sample.libs Demo.offline (mkQuery None None None)
     = (Demo.offline, send 500 (SuccessMessage false "Failed to fetch books")).
Proof.
  destruct (unreachable_store_statuses Sample.libs Demo.offline Sample.rq "3"
              Demo.dune (mkQuery None None None) eq_refl) as (_ & _ & H3 & H4).
  split; assumption.
Defined.

Lemma seed_appends_five_books_witness :
  seed Sample.libs Demo.empty 1000 Demo.ids
    = (mkDb [] Sample.seeded true,
       ["Connected to MongoDB"; "Books inserted successfully"])
  /\ seed Sample.libs (mkDb [] Sample.seeded true) 1500 Demo.more_ids
     = (mkDb [] (Sample.seeded ++ seeded_at 1500 Demo.more_ids) true,
        ["Connected to MongoDB"; "Books inserted successfully"]).
Proof.
  split.
  - refine (proj1 (seed_appends_five_books Sample.libs Demo.empty 1000 Demo.ids)
              eq_refl _ _).
    + repeat constructor; cbn; intuition discriminate.
    + intros k _ [].
  - refine (proj1 (seed_appends_five_books Sample.libs (mkDb [] Sample.seeded true)
                     1500 Demo.more_ids) eq_refl _ _).
    + repeat constructor; cbn; intuition discriminate.
    + intros k Hk. cbn. unfold Demo.more_ids. lia.
Defined.

Lemma login_token_carries_identity_witness :
  login Signed.libs Sample.store Sample.rq Demo.alice_login
    = (Sample.store,
       send 200 (LoginData Demo.alice_token
                   (mkSummary 1%N "alice" "alice@example.com" "user")))
  /\ authMiddleware Signed.libs 3000 (Some ("Bearer " +:+ Demo.alice_token))
     = Next (mkDecoded 1%N "user" 2000 5600)
  /\ app Signed.libs Demo.empty Demo.later
       (GET_auth_me (Some ("Bearer " +:+ Demo.alice_token)))
     = (Demo.empty, send 200 (Me (mkDecoded 1%N "user" 2000 5600))).
Proof.
  assert (H : login Signed.libs Sample.store Sample.rq Demo.alice_login
              = (Sample.store,
                 send 200 (LoginData Demo.alice_token
                             (mkSummary 1%N "alice" "alice@example.com" "user"))))
    by (vm_compute; reflexivity).
  assert (G : authMiddleware Signed.libs 3000 (Some ("Bearer " +:+ Demo.alice_token))
              = Next (mkDecoded 1%N "user" 2000 5600)) by (vm_compute; reflexivity).
  split_ands; [exact H | exact G |].
  assert (T : nth_error (split " " ("Bearer " +:+ Demo.alice_token)) 1
              = Some Demo.alice_token) by reflexivity.
  destruct (login_token_carries_identity Signed.libs _ _ _ _ _ "supersecretkey" _
              3000 ("Bearer " +:+ Demo.alice_token) _
              signed_payload_contract eq_refl H T G) as (_ & _ & M).
  exact (M Demo.empty Demo.later eq_refl).
Defined.

Lemma catalog_requests_answered_witness :
  exists st' resp,
    app Sample.libs Demo.offline Sample.rq (DELETE_books "3" (Some Demo.bearer))
    = (st', Sent resp).
Proof.
  exact (catalog_requests_answered Sample.libs Demo.offline Sample.rq
           (DELETE_books "3" (Some Demo.bearer)) I).
Defined.

(** ** Login when the comparison of hashes cannot run *)

Section LoginOracle.

Variable L : libraries.

(** C3.  A login whose email matches a user but whose password is not a
    string (missing, null, a number) is not answered at all: the
    rejection of [bcrypt.compare] escapes the handler, which has no
    [try]/[catch].  The same request for an email that matches no user is
    answered 400 "Invalid credentials".  The two outcomes differ, so they
    tell whether the email is registered. *)
Theorem login_password_not_string_reveals_user
    (st : db) (rq1 rq2 : env) (body1 body2 : object) (u : User) :
  User_findOne_email L st (body1 !! "email") = Ok None ->
  User_findOne_email L st (body2 !! "email") = Ok (Some u) ->
  (forall s, body2 !! "password" <> Some (JStr s)) ->
  login L st rq1 body1 = (st, send 400 (Message "Invalid credentials"))
  /\ login L st rq2 body2 = (st, Unhandled IllegalArguments)
  /\ snd (login L st rq2 body2) <> snd (login L st rq1 body1).
Proof.
  intros H1 H2 Hp.
  assert (E1 : login L st rq1 body1 = (st, send 400 (Message "Invalid credentials"))).
  { unfold login, uncaught. now rewrite H1. }
  assert (E2 : login L st rq2 body2 = (st, Unhandled IllegalArguments)).
  { unfold login, uncaught, bcrypt_compare. rewrite H2. cbn [bind].
    destruct (body2 !! "password") as [[| | |s| |]|]; try reflexivity.
    now contradiction (Hp s). }
  split_ands; [exact E1 | exact E2 |].
  rewrite E1, E2. discriminate.
Qed.

End LoginOracle.

Lemma login_password_not_string_reveals_user_witness :
  login Sample.libs Sample.store Sample.rq Requests.nobody_no_password
    = (Sample.store, send 400 (Message "Invalid credentials"))
  /\ login Sample.libs Sample.store Sample.rq Requests.alice_no_password
     = (Sample.store, Unhandled IllegalArguments)
  /\ snd (login Sample.libs Sample.store Sample.rq Requests.alice_no_password)
     <> snd (login Sample.libs Sample.store Sample.rq Requests.nobody_no_password).
Proof.
  apply (login_password_not_string_reveals_user Sample.libs Sample.store
           Sample.rq Sample.rq Requests.nobody_no_password
           Requests.alice_no_password Sample.alice).
  - vm_compute. reflexivity.
  - vm_compute. reflexivity.
  - intros s. vm_compute. discriminate.
Defined.

(** ** Refusals of a new book *)

Section CreateRefusals.

Variable L : libraries.

Lemma Book_save_blank_title (st : db) (rq : env) (t : string) (va vy : option json) :
  all_space t = true ->
  exists e, Book_save L st rq (Some (JStr t)) va vy = Throw e.
Proof.
  intros Ht. unfold Book_save. cbn [castString bind].
  destruct (castString L va) as [a|e]; cbn [bind]; [|eauto].
  destruct (castNumber L vy) as [y|e]; cbn [bind]; [|eauto].
  unfold required at 1. cbn [option_map]. rewrite (trim_all_space t Ht).
  cbn. eauto.
Qed.

Lemma createBook_outcomes (st : db) (rq : env) (body : object) :
  ((truthy (body !! "title") = false \/ truthy (body !! "author") = false
    \/ truthy (body !! "year") = false)
   /\ createBook L st rq body
      = (st, send 400 (Message "Title, author, and year are required")))
  \/ (truthy (body !! "title") = true /\ truthy (body !! "author") = true
      /\ truthy (body !! "year") = true
      /\ exists st' b,
           Book_save L st rq (body !! "title") (body !! "author") (body !! "year")
           = Ok (st', b)
           /\ createBook L st rq body = (st', send 201 (BookData b)))
  \/ (truthy (body !! "title") = true /\ truthy (body !! "author") = true
      /\ truthy (body !! "year") = true
      /\ exists e,
           Book_save L st rq (body !! "title") (body !! "author") (body !! "year")
           = Throw e
           /\ createBook L st rq body
              = (st, send 400 (SuccessMessage false "Invalid book data"))).
Proof.
  unfold createBook, try_catch.
  destruct (truthy (body !! "title")), (truthy (body !! "author")),
    (truthy (body !! "year")); cbn [negb orb]; try (left; split; auto; fail).
  destruct (Book_save L st rq _ _ _) as [[st' b]|e]; cbn [bind fst snd].
  - right. left. split_ands; try reflexivity. now exists st', b.
  - right. right. split_ands; try reflexivity. now exists e.
Qed.

(** C9 as amended.  Creating a book is refused with 400 in two ways.  The
    response "Title, author, and year are required" is sent exactly when
    the title, the author or the year is missing or falsy (so without a
    year, or with the year 0, although the schema does not require it).
    With all three truthy the request is still refused, with "Invalid book
    data", exactly when casting, schema validation or the save fails, as
    for a title that is blank once trimmed.  Whenever the answer is 400 no
    record is persisted. *)
Theorem createBook_validation_failures (st : db) (rq : env) (body : object) :
  (snd (createBook L st rq body)
     = send 400 (Message "Title, author, and year are required")
   <-> (truthy (body !! "title") = false \/ truthy (body !! "author") = false
        \/ truthy (body !! "year") = false))
  /\ (snd (createBook L st rq body)
        = send 400 (SuccessMessage false "Invalid book data")
      <-> (truthy (body !! "title") = true /\ truthy (body !! "author") = true
           /\ truthy (body !! "year") = true
           /\ exists e, Book_save L st rq (body !! "title") (body !! "author")
                          (body !! "year") = Throw e))
  /\ (forall t, body !! "title" = Some (JStr t) -> t <> "" -> all_space t = true ->
      truthy (body !! "author") = true -> truthy (body !! "year") = true ->
      createBook L st rq body
      = (st, send 400 (SuccessMessage false "Invalid book data")))
  /\ (forall r, snd (createBook L st rq body) = send 400 r ->
      fst (createBook L st rq body) = st
      /\ (r = Message "Title, author, and year are required"
          \/ r = SuccessMessage false "Invalid book data"))
  /\ (body !! "year" = None ->
      createBook L st rq body
      = (st, send 400 (Message "Title, author, and year are required")))
  /\ (body !! "year" = Some (JNum 0) ->
      createBook L st rq body
      = (st, send 400 (Message "Title, author, and year are required"))).
Proof.
  destruct (createBook_outcomes st rq body)
    as [(Hf & E) | [(Tt & Ta & Ty & st' & b & Es & E) | (Tt & Ta & Ty & e & Es & E)]];
    rewrite E; cbn [fst snd]; split_ands.
  - split; [intros _; exact Hf | reflexivity].
  - split; [discriminate | intros (H1 & H2 & H3 & _); destruct Hf as [H | [H | H]]; congruence].
  - intros t Et Hne _ H2 H3. exfalso. destruct Hf as [H | [H | H]]; try congruence.
    rewrite Et in H. cbn [truthy] in H. rewrite (eqb_empty_false t Hne) in H.
    discriminate H.
  - intros r [= <-]. auto.
  - reflexivity.
  - reflexivity.
  - split; [discriminate | intros [H | [H | H]]; congruence].
  - split; [discriminate | intros (_ & _ & _ & e & He); congruence].
  - intros t Et _ Hs _ _. exfalso.
    destruct (Book_save_blank_title st rq t (body !! "author") (body !! "year") Hs)
      as [e He]. rewrite Et in Es. congruence.
  - intros r. discriminate.
  - intros Ey. rewrite Ey in Ty. discriminate Ty.
  - intros Ey. rewrite Ey in Ty. discriminate Ty.
  - split; [discriminate | intros [H | [H | H]]; congruence].
  - split; [intros _; split_ands; eauto | reflexivity].
  - reflexivity.
  - intros r [= <-]. auto.
  - intros Ey. rewrite Ey in Ty. discriminate Ty.
  - intros Ey. rewrite Ey in Ty. discriminate Ty.
Qed.

End CreateRefusals.

(** C9, as stated, fails: with title, author and year all truthy, a title
    of spaces only is still refused with 400, by the validation of the
    schema; so a refusal with 400 does not imply that one of the three is
    missing or falsy. *)
Lemma createBook_blank_title_refused :
  truthy (Requests.blank_title !! "title") = true
  /\ truthy (Requests.blank_title !! "author") = true
  /\ truthy (Requests.blank_title !! "year") = true
  /\ createBook Sample.libs Sample.store Sample.rq Requests.blank_title
     = (Sample.store, send 400 (SuccessMessage false "Invalid book data"))
  /\ ~ ((exists r, snd (createBook Sample.libs Sample.store Sample.rq
                         Requests.blank_title) = send 400 r)
        <-> (truthy (Requests.blank_title !! "title") = false
             \/ truthy (Requests.blank_title !! "author") = false
             \/ truthy (Requests.blank_title !! "year") = false)).
Proof.
  assert (Ht : truthy (Requests.blank_title !! "title") = true)
    by (vm_compute; reflexivity).
  assert (Ha : truthy (Requests.blank_title !! "author") = true)
    by (vm_compute; reflexivity).
  assert (Hy : truthy (Requests.blank_title !! "year") = true)
    by (vm_compute; reflexivity).
  assert (E : createBook Sample.libs Sample.store Sample.rq Requests.blank_title
              = (Sample.store, send 400 (SuccessMessage false "Invalid book data")))
    by (vm_compute; reflexivity).
  split_ands; try assumption.
  intros [H _].
  destruct H as [F | [F | F]]; [| congruence | congruence | congruence].
  rewrite E. cbn [snd]. eauto.
Qed.

